(** * apply_include_cleaner.py: a shallow embedding and its properties

    The script [tools_webrtc/iwyu/apply_include_cleaner.py] runs the
    clang include cleaner over a list of files, adjusts the tool's report,
    and rewrites a few include spellings the tool does not know about.

    The definitions come first:
    - [Text]: Python [str] operations used by the script ([in], [strip],
      [str.join]) and the fragment of [re.sub] its three patterns need;
    - [Cleaner]: the constants and the two pure functions
      [_modified_output] and [_modified_content];
    - [Driver]: the effectful functions ([_is_built],
      [_generate_compile_commands], [apply_include_cleaner_to_file], [main])
      over an explicit world (file system and event trace) in a state and
      exception monad, the external tools being parameters;
    - [Samples]: concrete contents, tools and worlds;
    - [Observed]: what a run may do to the outside and how it may end.

    The proofs follow: [re.sub] is shown to work line by line
    ([TextFacts], [SubFacts], [CleanerFacts]), which gives the properties
    of the two rewrites ([CleanerClaims]); the driver is evaluated branch
    by branch ([DriverFacts], [DriverClaims], [DriverWitnesses]).
    [CleanerExtras] and [DriverExtras] add fixed points, line structure,
    the events and outcomes of a whole run, and the error paths. *)

From Stdlib Require Import String Ascii List Bool Arith ZArith Lia.
Import ListNotations.
Local Open Scope list_scope.
Local Open Scope string_scope.

(* ================================================================== *)
(** ** Python text operations *)

Module Text.

(** The newline and the double quote, written with their codes. *)
Definition nl : ascii := "010"%char.
Definition dq : ascii := "034"%char.
Definition NL : string := String nl EmptyString.
Definition DQ : string := String dq EmptyString.

(** [quoted s] is [s] between double quotes. *)
Definition quoted (s : string) : string := DQ ++ s ++ DQ.

(** Truth value of a Python [str]: non-empty. *)
Definition truthy (s : string) : bool :=
  match s with EmptyString => false | String _ _ => true end.

(** [starts_with p s]: [s.startswith(p)]. *)
Fixpoint starts_with (p s : string) : bool :=
  match p with
  | EmptyString => true
  | String a p' =>
      match s with
      | EmptyString => false
      | String b s' => Ascii.eqb a b && starts_with p' s'
      end
  end.

(** [contains p s]: the Python test [p in s]. *)
Fixpoint contains (p s : string) : bool :=
  starts_with p s ||
  match s with
  | EmptyString => false
  | String _ s' => contains p s'
  end.

(** Characters [str.strip()] removes, over 8-bit code points:
    TAB..CR, FS..US, space, NEL and NBSP. *)
Definition is_space (c : ascii) : bool :=
  let n := nat_of_ascii c in
  (((9 <=? n) && (n <=? 13)) || ((28 <=? n) && (n <=? 32))
   || (n =? 133) || (n =? 160))%nat.

Fixpoint lstrip (s : string) : string :=
  match s with
  | EmptyString => EmptyString
  | String c s' => if is_space c then lstrip s' else s
  end.

(** [rstrip] keeps a character when it is not a space or when something
    is kept after it. *)
Fixpoint rstrip (s : string) : string :=
  match s with
  | EmptyString => EmptyString
  | String c s' =>
      match rstrip s' with
      | EmptyString => if is_space c then EmptyString else String c EmptyString
      | r => String c r
      end
  end.

Definition strip (s : string) : string := rstrip (lstrip s).

(** [lines s] is [s.split("\n")]: the segments between newlines; the last
    one is what follows the last newline (empty when [s] ends with one). *)
Fixpoint lines (s : string) : list string :=
  match s with
  | EmptyString => [EmptyString]
  | String c s' =>
      if Ascii.eqb c nl then EmptyString :: lines s'
      else match lines s' with
           | l :: ls => String c l :: ls
           | [] => [String c EmptyString]
           end
  end.

(** [unlines ls] is ["\n".join(ls)]. *)
Definition unlines (ls : list string) : string := String.concat NL ls.

(** A string without newline: one line. *)
Fixpoint one_line (s : string) : bool :=
  match s with
  | EmptyString => true
  | String c s' => negb (Ascii.eqb c nl) && one_line s'
  end.

(** *** The fragment of [re] the script uses

    Every pattern of the script is [^] followed by a sequence of
    single-character items, and one of them ends with [$].  An item is a
    literal character or the dot, which matches any character except a
    newline. *)
Inductive item : Type :=
| Lit (c : ascii)
| Dot.

Definition item_matches (i : item) (c : ascii) : bool :=
  match i with
  | Lit d => Ascii.eqb d c
  | Dot => negb (Ascii.eqb c nl)
  end.

(** Text written in a pattern as it is: every character stands for itself
    except the dot.  (The texts the script writes this way hold no other
    special character.) *)
Definition raw (s : string) : list item :=
  map (fun c => if Ascii.eqb c "."%char then Dot else Lit c)
      (list_ascii_of_string s).

(** [re.escape(s)] in a pattern: every character stands for itself. *)
Definition escaped (s : string) : list item :=
  map Lit (list_ascii_of_string s).

(** [match_here p s]: the items [p] match a prefix of [s]; the result is
    what follows the match. *)
Fixpoint match_here (p : list item) (s : string) : option string :=
  match p with
  | [] => Some s
  | i :: p' =>
      match s with
      | EmptyString => None
      | String c s' => if item_matches i c then match_here p' s' else None
      end
  end.

Definition is_some {A} (o : option A) : bool :=
  match o with Some _ => true | None => false end.

(** [scan p repl bol skip s]: [re.sub] for the pattern [^p] with
    [re.MULTILINE], reading [s] from left to right.  [bol] says that the
    position is the start of the string or follows a newline; [skip]
    counts the characters of the current match still to be dropped.  A
    match takes [length p] characters ([p] is not empty), and the search
    goes on after it. *)
Fixpoint scan (p : list item) (repl : string) (bol : bool) (skip : nat)
         (s : string) : string :=
  match s with
  | EmptyString => EmptyString
  | String c s' =>
      let bol' := Ascii.eqb c nl in
      match skip with
      | S k => scan p repl bol' k s'
      | O =>
          if bol && is_some (match_here p s)
          then repl ++ scan p repl bol' (pred (length p)) s'
          else String c (scan p repl bol' 0 s')
      end
  end.

(** [re.sub('^' + p, repl, s, flags=re.MULTILINE)]. *)
Definition sub_multiline (p : list item) (repl s : string) : string :=
  scan p repl true 0 s.

(** [re.sub('^' + p + '$', repl, s)] without [re.MULTILINE]: [^] matches
    at the start of the string only, [$] at its end or before a newline
    that ends it. *)
Definition sub_whole (p : list item) (repl s : string) : string :=
  match match_here p s with
  | Some rest =>
      if String.eqb rest EmptyString || String.eqb rest NL
      then repl ++ rest
      else s
  | None => s
  end.

(** *** The same substitutions, line by line

    These are the descriptions the theorems below compare [scan] with. *)

(** No item of [p] matches a newline. *)
Definition nl_free (p : list item) : bool :=
  forallb (fun i => negb (item_matches i nl)) p.

(** The substitution of [^p] by [repl] in one line. *)
Definition sub_line (p : list item) (repl l : string) : string :=
  match match_here p l with
  | Some rest => repl ++ rest
  | None => l
  end.

(** [p] matches the whole of [l]. *)
Definition full_match (p : list item) (l : string) : bool :=
  match match_here p l with
  | Some EmptyString => true
  | _ => false
  end.

(** Among the lines that a newline ends (all but the last), drop those
    for which [drop] holds. *)
Fixpoint drop_lines (drop : string -> bool) (ls : list string)
  : list string :=
  match ls with
  | [] => []
  | l :: rest =>
      match rest with
      | [] => [l]
      | _ :: _ =>
          if drop l then drop_lines drop rest
          else l :: drop_lines drop rest
      end
  end.

(** [ends_nl b m]: the position after [m] follows a newline, [b] being the
    answer before [m]. *)
Fixpoint ends_nl (b : bool) (m : string) : bool :=
  match m with
  | EmptyString => b
  | String c m' => ends_nl (Ascii.eqb c nl) m'
  end.

(** [line_edit ls ls']: [ls'] is [ls] where some lines that begin with
    [marker] were changed or removed, and nothing else happened. *)
Inductive line_edit (marker : string) : list string -> list string -> Prop :=
| edit_done : line_edit marker [] []
| edit_keep l ls ls' :
    line_edit marker ls ls' -> line_edit marker (l :: ls) (l :: ls')
| edit_change l l' ls ls' :
    starts_with marker l = true ->
    line_edit marker ls ls' -> line_edit marker (l :: ls) (l' :: ls')
| edit_remove l ls ls' :
    starts_with marker l = true ->
    line_edit marker ls ls' -> line_edit marker (l :: ls) ls'.

End Text.

(* ================================================================== *)
(** ** Constants and the two text rewrites *)

Module Cleaner.
Import Text.

Definition _CLEANER_BINARY_PATH : string :=
  "third_party/llvm-build/Release+Asserts/bin/clang-include-cleaner".
Definition _DEFAULT_WORKDIR : string := "out/Default".
Definition _EXTRA_ARGS : list string :=
  [ "-I../../third_party/googletest/src/googlemock/include/";
    "-I../../third_party/googletest/src/googletest/include/" ].

Definition _GTEST_KEY : string := quoted "gtest/gtest.h".
Definition _GTEST_VALUE : string := quoted "test/gtest.h".

(** The dict [_IWYU_MAPPING] in its iteration (insertion) order. *)
Definition _IWYU_MAPPING : list (string * string) :=
  [ (quoted "gmock/gmock.h", quoted "test/gmock.h");
    (_GTEST_KEY, _GTEST_VALUE);
    ("<sys/socket.h>", quoted "rtc_base/net_helpers.h");
    (DQ ++ "libyuv/", DQ ++ "third_party/libyuv/include/libyuv/");
    (DQ ++ "aom/", DQ ++ "third_party/libaom/source/libaom/aom/");
    (DQ ++ "vpx/", DQ ++ "third_party/libvpx/source/libvpx/vpx/") ].

Definition _SUFFICES : list string := [".cc"; ".h"].

Definition _IGNORED_HEADERS : list string :=
  [ ".pb.h"; "pipewire/.*.h"; "spa/.*.h"; "openssl/.*.h"; "alsa/.*.h";
    "pulse/.*.h" ].

(** The pattern of [_modified_output], [rf'^\+ {_GTEST_KEY}$']: an
    escaped plus, a space, and the key as it is. *)
Definition output_pattern : list item :=
  (escaped "+ " ++ raw _GTEST_KEY)%list.

(** [_modified_output(output, content)]. *)
Definition _modified_output (output content : string) : string :=
  if contains _GTEST_VALUE content
  then sub_whole output_pattern "" output
  else output.

(** The pattern of the removal, [rf'^#include {_GTEST_KEY}\n']. *)
Definition removal_pattern : list item :=
  (escaped "#include " ++ raw _GTEST_KEY ++ [Lit nl])%list.

(** The pattern of a table entry, [rf'^#include {re.escape(key)}']. *)
Definition entry_pattern (key : string) : list item :=
  (escaped "#include " ++ escaped key)%list.

(** The first step of [_modified_content]: the guarded removal. *)
Definition remove_deprecated (content : string) : string :=
  if contains _GTEST_VALUE content
  then sub_multiline removal_pattern "" content
  else content.

(** One turn of the loop over [_IWYU_MAPPING.items()]. *)
Definition apply_entry (modified_content : string) (kv : string * string)
  : string :=
  sub_multiline (entry_pattern (fst kv)) ("#include " ++ snd kv)
                modified_content.

(** [_modified_content(content)]. *)
Definition _modified_content (content : string) : string :=
  fold_left apply_entry _IWYU_MAPPING (remove_deprecated content).

(** *** Line by line *)

(** What one turn of the loop does to one line, and the whole loop. *)
Definition line_entry (l : string) (kv : string * string) : string :=
  sub_line (entry_pattern (fst kv)) ("#include " ++ snd kv) l.

Definition rewrite_line (l : string) : string :=
  fold_left line_entry _IWYU_MAPPING l.

(** An entry whose pattern matches no newline and whose new spelling
    holds none. *)
Definition entry_ok (kv : string * string) : bool :=
  nl_free (entry_pattern (fst kv)) && one_line ("#include " ++ snd kv).

(** The deprecated include line, and the lines the removal pattern
    matches (without the newline that ends them). *)
Definition deprecated_line : string := "#include " ++ _GTEST_KEY.

Definition removal_matches (l : string) : bool :=
  full_match (escaped "#include " ++ raw _GTEST_KEY)%list l.

(** The lines of a content after the first step. *)
Definition lines_after_removal (content : string) : list string :=
  if contains _GTEST_VALUE content
  then drop_lines removal_matches (lines content)
  else lines content.

(** A line that does not begin with [#include ]. *)
Definition not_include (l : string) : bool :=
  negb (starts_with "#include " l).

(** A line begins with [#include ] followed by a key of the table. *)
Definition names_key (l : string) : bool :=
  existsb (fun kv => starts_with ("#include " ++ fst kv) l) _IWYU_MAPPING.

End Cleaner.

(* ================================================================== *)
(** ** The driver: external tools, files and printing *)

Module Driver.
Import Text Cleaner.

(** What [subprocess.run] returns. *)
Record CompletedProcess : Type := {
  returncode : Z;
  stdout : string;
  stderr : string
}.

(** The exceptions of the paths modelled here.  The script catches
    none. *)
Inductive exn : Type :=
| OSError                       (* a program or a file could not be opened *)
| CalledProcessError (rc : Z)   (* [check=True] and a non-zero exit code *)
| SystemExit (code : Z).        (* [sys.exit(code)] *)

(** What the script does to the outside, in order. *)
Inductive event : Type :=
| Printed (s : string)
| Ran (cmd : list string)          (* [subprocess.run(cmd, ...)] launched *)
| Opened (path : string)           (* [open(mode="w+")]: created or emptied *)
| Wrote (path content : string).   (* [write_text(content)] *)

(** The regular files, by path, with their text. *)
Definition FS : Type := string -> option string.

Definition store (path content : string) (fs : FS) : FS :=
  fun q => if String.eqb q path then Some content else fs q.

Record World : Type := {
  w_files : FS;
  w_trace : list event
}.

(** State and exception monad over the world. *)
Definition M (A : Type) : Type := World -> (exn + A) * World.

Definition ret {A} (a : A) : M A := fun w => (inr a, w).

Definition raise {A} (e : exn) : M A := fun w => (inl e, w).

Definition bind {A B} (c : M A) (k : A -> M B) : M B :=
  fun w =>
    match c w with
    | (inl e, w') => (inl e, w')
    | (inr a, w') => k a w'
    end.

Notation "x <- c1 ;; c2" := (bind c1 (fun x => c2))
  (at level 61, c1 at next level, right associativity).
Notation "c1 ;; c2" := (bind c1 (fun _ => c2))
  (at level 61, right associativity).

Definition emit (e : event) : M unit :=
  fun w => (inr tt, {| w_files := w_files w;
                       w_trace := (w_trace w ++ [e])%list |}).

Definition print (s : string) : M unit := emit (Printed s).

Definition is_file (path : string) : M bool :=
  fun w => (inr (is_some (w_files w path)), w).

(** [Path.read_text()], the files holding text: a path without a file
    raises [FileNotFoundError], an [OSError].  Bytes that do not decode
    are outside this model. *)
Definition read_text (path : string) : M string :=
  fun w =>
    match w_files w path with
    | Some content => (inr content, w)
    | None => (inl OSError, w)
    end.

Definition set_file (path content : string) : M unit :=
  fun w => (inr tt, {| w_files := store path content (w_files w);
                       w_trace := w_trace w |}).

Definition write_text (path content : string) : M unit :=
  emit (Wrote path content) ;; set_file path content.

(** [Path.open(mode="w+")] where the file can be opened: it is created
    or emptied.  A directory that refuses the file is outside this
    model. *)
Definition open_w (path : string) : M unit :=
  emit (Opened path) ;; set_file path "".

(** The writes and the program runs among some events. *)
Definition writes_of (evs : list event) : list event :=
  filter (fun e => match e with Wrote _ _ => true | _ => false end) evs.

Definition runs_of (evs : list event) : list event :=
  filter (fun e => match e with Ran _ => true | _ => false end) evs.

(** A computation that reads the files only, never the trace, and adds
    its events at the end of the trace. *)
Definition appends {A} (c : M A) : Prop :=
  forall fs, exists r fs' evs, forall t,
    c {| w_files := fs; w_trace := t |}
    = (r, {| w_files := fs'; w_trace := (t ++ evs)%list |}).

(** The world with more events. *)
Definition logged (evs : list event) (w : World) : World :=
  {| w_files := w_files w; w_trace := (w_trace w ++ evs)%list |}.

(** [should_modify] is set and the rewrite changes the content. *)
Definition rewrite_due (should_modify : bool) (content : string) : bool :=
  should_modify && negb (String.eqb content (_modified_content content)).

(** Command-line arguments as [_parse_args()] returns them. *)
Record Namespace : Type := {
  files : list string;
  print_only : bool;          (* [args.print] *)
  check_for_changes : bool;
  work_dir : string
}.

Section Program.

(** [pathlib.Path.suffix], of the Python library. *)
Variable suffix : string -> string.

(** [_GN_BINARY_PATH] is built from [find_depot_tools.DEPOT_TOOLS_PATH],
    a module outside this file. *)
Variable _GN_BINARY_PATH : string.

(** The three external programs, each a function of its command line and
    of the files; [None] when the program cannot be launched.  The build
    graph query only answers; the generator only prints; the cleaner may
    edit files (it is run with [--edit]). *)
Variable gn : list string -> FS -> option CompletedProcess.
Variable generator : list string -> FS -> option CompletedProcess.
Variable cleaner : list string -> FS -> option (CompletedProcess * FS).

(** [subprocess.run(cmd, ...)] for a program that only reads the files:
    [OSError] when it cannot be launched, whatever [check] is. *)
Definition run_query (tool : list string -> FS -> option CompletedProcess)
           (cmd : list string) : M CompletedProcess :=
  fun w =>
    match tool cmd (w_files w) with
    | None => (inl OSError, w)
    | Some cp => (inr cp, {| w_files := w_files w;
                             w_trace := (w_trace w ++ [Ran cmd])%list |})
    end.

(** The same for the cleaner, which leaves the files as it edited them. *)
Definition run_cleaner (cmd : list string) : M CompletedProcess :=
  fun w =>
    match cleaner cmd (w_files w) with
    | None => (inl OSError, w)
    | Some (cp, fs') => (inr cp, {| w_files := fs';
                                    w_trace := (w_trace w ++ [Ran cmd])%list |})
    end.

Definition gn_cmd (filename work_dir : string) : list string :=
  [_GN_BINARY_PATH; "refs"; "-C"; work_dir; filename].

(** [_is_built(filename, work_dir)]. *)
Definition _is_built (filename work_dir : string) : M bool :=
  gn_result <- run_query gn (gn_cmd filename work_dir) ;;
  ret (returncode gn_result =? 0)%Z.

Definition skip_notice (file : string) : string :=
  "Skipping include cleaner as " ++ file ++ " is not referenced by GN.".

Definition supported (file : string) : bool :=
  existsb (String.eqb (suffix file)) _SUFFICES.

Definition generator_cmd (work_dir : string) : list string :=
  ["tools/clang/scripts/generate_compdb.py"; "-p"; work_dir].

Definition compile_commands_path (work_dir : string) : string :=
  work_dir ++ "/compile_commands.json".

(** [_generate_compile_commands(work_dir)]: the file is opened for
    writing before the generator runs, the generator's standard output
    goes into it, and [check=True] turns a non-zero exit code into
    [CalledProcessError]. *)
Definition _generate_compile_commands (work_dir : string) : M unit :=
  let compile_commands_path := compile_commands_path work_dir in
  present <- is_file compile_commands_path ;;
  if negb present then
    print "Generating compile commands file..." ;;
    open_w compile_commands_path ;;
    result <- run_query generator (generator_cmd work_dir) ;;
    set_file compile_commands_path (stdout result) ;;
    if negb (returncode result =? 0)%Z
    then raise (CalledProcessError (returncode result))
    else ret tt
  else ret tt.

(** [apply_include_cleaner_to_file(file_path, should_modify, cmd)]. *)
Definition apply_include_cleaner_to_file (file_path : string)
           (should_modify : bool) (cmd : list string) : M string :=
  let cmd := (cmd ++ [file_path])%list in
  result <- run_cleaner cmd ;;
  (if negb (returncode result =? 0)%Z
   then print ("Failed to run include cleaner on " ++ file_path
               ++ ", stderr: " ++ strip (stderr result))
   else ret tt) ;;
  let output := strip (stdout result) in
  content <- read_text file_path ;;
  let output := _modified_output output content in
  (if should_modify then
     let modified_content := _modified_content content in
     if negb (String.eqb content modified_content)
     then write_text file_path modified_content
     else ret tt
   else ret tt) ;;
  (if truthy output
   then print output
   else print ("Successfully ran include cleaner on " ++ file_path)) ;;
  ret output.

(** The [for file in args.files] loop of [main], with the flag
    [changes_generated] it updates. *)
Fixpoint main_loop (work_dir : string) (should_modify : bool)
         (cmd : list string) (fs : list string) (changes_generated : bool)
  : M bool :=
  match fs with
  | [] => ret changes_generated
  | file :: rest =>
      if negb (supported file)
      then main_loop work_dir should_modify cmd rest changes_generated
      else
        built <- _is_built file work_dir ;;
        if negb built then
          print (skip_notice file) ;;
          main_loop work_dir should_modify cmd rest changes_generated
        else
          output <- apply_include_cleaner_to_file file should_modify cmd ;;
          main_loop work_dir should_modify cmd rest
                    (truthy output || changes_generated)
  end.

(** The command [main] builds, without its last argument. *)
Definition base_cmd (work_dir : string) : list string :=
  ([_CLEANER_BINARY_PATH; "-p"; work_dir;
    ("--ignore-headers=" ++ String.concat "," _IGNORED_HEADERS)%string]
   ++ map (fun extra_arg => ("--extra-arg=" ++ extra_arg)%string)
          _EXTRA_ARGS)%list.

Definition should_modify_of (args : Namespace) : bool :=
  negb (print_only args || check_for_changes args).

Definition cmd_of (args : Namespace) : list string :=
  (base_cmd (work_dir args)
   ++ [if print_only args || check_for_changes args
       then "--print=changes" else "--edit"])%list.

(** What [main] does before the loop. *)
Definition main_before_loop (args : Namespace) : M unit :=
  present <- is_file _CLEANER_BINARY_PATH ;;
  (if negb present then
     print ("clang-include-cleaner not found in " ++ _CLEANER_BINARY_PATH) ;;
     print ("Add '" ++ quoted "checkout_clangd"
            ++ ": True' to 'custom_vars' in your  "
            ++ ".gclient file and run 'gclient sync'.")
   else ret tt) ;;
  _generate_compile_commands (work_dir args).

(** What [main] does after the loop. *)
Definition main_after_loop (args : Namespace) (changes_generated : bool)
  : M unit :=
  print ("Finished. Check diff, compile, gn gen --check "
         ++ "(tools_webrtc/gn_check_autofix.py can fix most of the issues)") ;;
  print "and git cl format before uploading." ;;
  if changes_generated && check_for_changes args
  then raise (SystemExit 1)
  else ret tt.

(** [main()] from the return of [_parse_args()] on; [args] is what it
    returned.  What [argparse] does with a bad command line comes before
    and is outside this model. *)
Definition main (args : Namespace) : M unit :=
  main_before_loop args ;;
  changes_generated <-
    main_loop (work_dir args) (should_modify_of args) (cmd_of args)
              (files args) false ;;
  main_after_loop args changes_generated.

(** The exit status of the process: 0 when [main] returns, the code of
    [sys.exit], and 1 for an exception nobody caught. *)
Definition exit_status (r : exn + unit) : Z :=
  match r with
  | inr _ => 0
  | inl (SystemExit code) => code
  | inl _ => 1
  end%Z.

(** The values [apply_include_cleaner_to_file] returns along the loop,
    for the files that reach it, in order. *)
Fixpoint processed_outputs (work_dir : string) (should_modify : bool)
         (cmd : list string) (fs : list string) : M (list string) :=
  match fs with
  | [] => ret []
  | file :: rest =>
      if negb (supported file)
      then processed_outputs work_dir should_modify cmd rest
      else
        built <- _is_built file work_dir ;;
        if negb built then
          print (skip_notice file) ;;
          processed_outputs work_dir should_modify cmd rest
        else
          output <- apply_include_cleaner_to_file file should_modify cmd ;;
          outputs <- processed_outputs work_dir should_modify cmd rest ;;
          ret (output :: outputs)
  end.

(** A pair of a file and its output, the output not empty. *)
Definition output_changed (fo : string * string) : bool := truthy (snd fo).

(** The files the loop passes to the cleaner, each with its adjusted
    output, read off the answers of the tools and the files alone.  A
    file counts when its suffix is supported and the build graph query
    ends with exit code 0; its output is the cleaner's standard output
    for the command and that file, stripped, and adjusted against the
    content the file has once the cleaner ran.  The files then are as the
    cleaner left them, the file itself rewritten when that is due.
    [None] when a tool cannot be launched or the file is not there. *)
Fixpoint adjusted_outputs (work_dir : string) (should_modify : bool)
         (cmd : list string) (fs : list string) (disk : FS)
  : option (list (string * string)) :=
  match fs with
  | [] => Some []
  | file :: rest =>
      if negb (supported file)
      then adjusted_outputs work_dir should_modify cmd rest disk
      else
        match gn (gn_cmd file work_dir) disk with
        | None => None
        | Some answer =>
            if negb (returncode answer =? 0)%Z
            then adjusted_outputs work_dir should_modify cmd rest disk
            else
              match cleaner (cmd ++ [file])%list disk with
              | None => None
              | Some (result, disk1) =>
                  match disk1 file with
                  | None => None
                  | Some content =>
                      let output :=
                        _modified_output (strip (stdout result)) content in
                      let disk2 :=
                        if rewrite_due should_modify content
                        then store file (_modified_content content) disk1
                        else disk1 in
                      match adjusted_outputs work_dir should_modify cmd
                                             rest disk2 with
                      | None => None
                      | Some outputs => Some ((file, output) :: outputs)
                      end
                  end
              end
        end
  end.

End Program.

End Driver.

(* ================================================================== *)
(** ** Sample inputs *)

Module Samples.
Import Text Cleaner Driver.

Definition include_line (spelling : string) : string :=
  "#include " ++ quoted spelling ++ NL.

(** A system header with a trailing comment. *)
Definition sample_socket : string :=
  "#include <sys/socket.h>  // sockets" ++ NL ++ "int f();" ++ NL.

(** The deprecated include, the canonical spelling in a comment only. *)
Definition sample_shadowed : string :=
  include_line "gtest/gtest.h" ++ "// " ++ _GTEST_VALUE ++ NL.

(** Both spellings and one more line of the table. *)
Definition sample_both : string :=
  include_line "test/gtest.h" ++ include_line "gtest/gtest.h"
  ++ include_line "gmock/gmock.h".

(** The deprecated include and a line that differs from it in the
    character the pattern writes as a dot. *)
Definition sample_near_miss : string :=
  include_line "gtest/gtest.h" ++ include_line "gtest/gtestXh".

(** A report of two changes. *)
Definition sample_report : string :=
  "- " ++ quoted "a.h" ++ NL ++ "+ " ++ _GTEST_KEY.

(** The text of a name from its last dot on. *)
Fixpoint text_from_last_dot (name : string) : string :=
  match name with
  | EmptyString => EmptyString
  | String c rest =>
      match text_from_last_dot rest with
      | EmptyString => if Ascii.eqb c "."%char then name else EmptyString
      | found => found
      end
  end.

Definition sample_gn_path : string := "depot_tools/gn.py".

(** A build graph that references every file but [unbuilt.cc]. *)
Definition sample_gn (cmd : list string) (_ : FS)
  : option CompletedProcess :=
  Some {| returncode := if String.eqb (last cmd "") "unbuilt.cc"
                        then 1 else 0;
          stdout := ""; stderr := "" |}.

(** No build graph tool at all. *)
Definition missing_gn (_ : list string) (_ : FS)
  : option CompletedProcess := None.

(** A generator that fails with exit code 2. *)
Definition failing_generator (_ : list string) (_ : FS)
  : option CompletedProcess :=
  Some {| returncode := 2; stdout := ""; stderr := "no such directory" |}.

(** A cleaner that reports one removal for every file and edits none. *)
Definition sample_cleaner (_ : list string) (fs : FS)
  : option (CompletedProcess * FS) :=
  Some ({| returncode := 0;
           stdout := "- " ++ quoted "x.h" ++ " @Line:1" ++ NL;
           stderr := "" |}, fs).

Definition sample_files (with_database : bool) : FS :=
  fun path =>
    if String.eqb path "a.cc" then Some sample_both
    else if String.eqb path "unbuilt.cc" then Some sample_socket
    else if String.eqb path _CLEANER_BINARY_PATH then Some ""
    else if String.eqb path "out/Default/compile_commands.json"
         then (if with_database then Some "[]" else None)
    else None.

Definition sample_world : World :=
  {| w_files := sample_files true; w_trace := [] |}.

Definition bare_world : World :=
  {| w_files := sample_files false; w_trace := [] |}.

Definition sample_args : Namespace :=
  {| files := ["README.md"; "unbuilt.cc"; "a.cc"];
     print_only := false;
     check_for_changes := true;
     work_dir := "out/Default" |}.

(** A cleaner that crashes on every file: exit code 1, nothing on its
    standard output, the files untouched. *)
Definition crashing_cleaner (_ : list string) (fs : FS)
  : option (CompletedProcess * FS) :=
  Some ({| returncode := 1; stdout := ""; stderr := "fatal error" |}, fs).

(** No cleaner to launch. *)
Definition missing_cleaner (_ : list string) (_ : FS)
  : option (CompletedProcess * FS) := None.

(** A generator that succeeds. *)
Definition sample_generator (_ : list string) (_ : FS)
  : option CompletedProcess :=
  Some {| returncode := 0; stdout := "[]"; stderr := "" |}.

End Samples.

(* ================================================================== *)
(** ** What the driver may do *)

Module Observed.
Import Text Cleaner Driver.

(** [within P Q c]: every event [c] adds satisfies [P], and every
    exception it ends with satisfies [Q]. *)
Definition within {A} (P : event -> Prop) (Q : exn -> Prop) (c : M A)
  : Prop :=
  forall w,
    (exists evs, w_trace (snd (c w)) = (w_trace w ++ evs)%list
                 /\ Forall P evs)
    /\ (forall e, fst (c w) = inl e -> Q e).

(** What the loop may do for the files [fs]: print, query the build graph
    about a supported file of [fs], run the cleaner on one, and write one
    when [should_modify] is set. *)
Definition loop_event_ok (suffix : string -> string) (gn_path : string)
           (work_dir : string) (should_modify : bool) (cmd fs : list string)
           (ev : event) : Prop :=
  match ev with
  | Printed _ => True
  | Opened _ => False
  | Ran c =>
      exists f, In f fs /\ supported suffix f = true
                /\ (c = gn_cmd gn_path f work_dir \/ c = (cmd ++ [f])%list)
  | Wrote path _ =>
      should_modify = true /\ In path fs /\ supported suffix path = true
  end.

(** What [main] may do: the above for [args.files], and the generation
    of the compilation database. *)
Definition main_event_ok (suffix : string -> string) (gn_path : string)
           (args : Namespace) (ev : event) : Prop :=
  match ev with
  | Opened path => path = compile_commands_path (work_dir args)
  | Ran c =>
      c = generator_cmd (work_dir args)
      \/ loop_event_ok suffix gn_path (work_dir args) (should_modify_of args)
                       (cmd_of args) (files args) ev
  | _ => loop_event_ok suffix gn_path (work_dir args) (should_modify_of args)
                       (cmd_of args) (files args) ev
  end.

(** How [main] may end when it does not return. *)
Definition main_exn_ok (args : Namespace) (e : exn) : Prop :=
  match e with
  | OSError => True
  | CalledProcessError rc => rc <> 0%Z
  | SystemExit code => code = 1%Z /\ check_for_changes args = true
  end.

Definition only_os_error (e : exn) : Prop := e = OSError.

End Observed.

(* ================================================================== *)
(** ** Facts about strings and lines *)

Module TextFacts.
Import Text.

Lemma app_assoc_s (a b c : string) : (a ++ b) ++ c = a ++ (b ++ c).
Proof. induction a as [|x a IH]; simpl; [reflexivity | now rewrite IH]. Qed.

Lemma app_empty_r (a : string) : a ++ "" = a.
Proof. induction a as [|x a IH]; simpl; [reflexivity | now rewrite IH]. Qed.

Lemma one_line_app (a b : string) :
  one_line (a ++ b) = one_line a && one_line b.
Proof.
  induction a as [|x a IH]; simpl; [reflexivity|].
  rewrite IH. now rewrite andb_assoc.
Qed.

Lemma length_app (a b : string) :
  String.length (a ++ b) = String.length a + String.length b.
Proof. induction a as [|x a IH]; simpl; [reflexivity | now rewrite IH]. Qed.

(** Two splits of one string at the same place are the same split. *)
Lemma app_inj_length (a a' b b' : string) :
  String.length a = String.length a' -> a ++ b = a' ++ b' ->
  a = a' /\ b = b'.
Proof.
  revert a'. induction a as [|x a IH]; intros [|y a']; simpl;
    intros Hlen H; try discriminate.
  - now split.
  - injection H as -> H. destruct (IH a') as [-> ->]; [lia | assumption |].
    now split.
Qed.

Lemma app_inv_tail_s (a a' b : string) : a ++ b = a' ++ b -> a = a'.
Proof.
  intros H. apply (app_inj_length a a' b b); [|assumption].
  apply (f_equal String.length) in H. rewrite !length_app in H. lia.
Qed.

(** *** [lines] and [unlines] *)

Lemma lines_not_nil (s : string) : lines s <> [].
Proof.
  induction s as [|c s IH]; simpl; [discriminate|].
  destruct (Ascii.eqb c nl); [discriminate|].
  destruct (lines s); [contradiction | discriminate].
Qed.

Lemma unlines_cons2 (l l' : string) (ls : list string) :
  unlines (l :: l' :: ls) = l ++ String nl (unlines (l' :: ls)).
Proof. reflexivity. Qed.

Lemma unlines_lines (s : string) : unlines (lines s) = s.
Proof.
  induction s as [|c s IH]; [reflexivity|].
  simpl. destruct (Ascii.eqb_spec c nl) as [->|Hc].
  - pose proof (lines_not_nil s) as Hn.
    destruct (lines s) as [|l ls] eqn:E; [contradiction|].
    rewrite unlines_cons2. simpl. now rewrite IH.
  - pose proof (lines_not_nil s) as Hn.
    destruct (lines s) as [|l ls] eqn:E; [contradiction|].
    destruct ls as [|l' ls].
    + change (unlines [l]) with l in IH. now rewrite IH.
    + rewrite unlines_cons2 in *. simpl. now rewrite IH.
Qed.

Lemma lines_one_line (s : string) :
  Forall (fun l => one_line l = true) (lines s).
Proof.
  induction s as [|c s IH]; simpl.
  - constructor; [reflexivity | constructor].
  - destruct (Ascii.eqb c nl) eqn:Ec.
    + constructor; [reflexivity | exact IH].
    + destruct (lines s) as [|l ls].
      * constructor; [simpl; now rewrite Ec | constructor].
      * inversion IH; subst. constructor; [simpl; now rewrite Ec | assumption].
Qed.

Lemma lines_line (l : string) :
  one_line l = true -> lines l = [l].
Proof.
  induction l as [|c l IH]; simpl; [reflexivity|].
  intros H. apply andb_true_iff in H as [Hc Hl].
  apply negb_true_iff in Hc. rewrite Hc, (IH Hl). reflexivity.
Qed.

Lemma lines_app_nl (l s : string) :
  one_line l = true -> lines (l ++ String nl s) = l :: lines s.
Proof.
  induction l as [|c l IH]; simpl; intros H.
  - reflexivity.
  - apply andb_true_iff in H as [Hc Hl].
    apply negb_true_iff in Hc. rewrite Hc, (IH Hl). reflexivity.
Qed.

Lemma lines_unlines (ls : list string) :
  ls <> [] -> Forall (fun l => one_line l = true) ls ->
  lines (unlines ls) = ls.
Proof.
  induction ls as [|l ls IH]; [contradiction|].
  intros _ H. inversion H as [|? ? Hl Hls]; subst.
  destruct ls as [|l' ls].
  - simpl. now apply lines_line.
  - rewrite unlines_cons2, lines_app_nl by assumption.
    f_equal. apply IH; [discriminate | assumption].
Qed.

(** *** [match_here] *)

Lemma match_here_app (p q : list item) (s : string) :
  match_here (p ++ q)%list s =
  match match_here p s with
  | Some r => match_here q r
  | None => None
  end.
Proof.
  revert s. induction p as [|i p IH]; intros s; simpl; [reflexivity|].
  destruct s as [|c s]; [reflexivity|].
  destruct (item_matches i c); [apply IH | reflexivity].
Qed.

(** A match is a prefix as long as the pattern. *)
Lemma match_here_split (p : list item) (s r : string) :
  match_here p s = Some r ->
  exists m, s = m ++ r /\ String.length m = List.length p.
Proof.
  revert s. induction p as [|i p IH]; intros s; simpl.
  - intros [= ->]. now exists "".
  - destruct s as [|c s]; [discriminate|].
    destruct (item_matches i c); [|discriminate].
    intros H. destruct (IH _ H) as (m & -> & Hm).
    exists (String c m). split; [reflexivity | simpl; now rewrite Hm].
Qed.

(** A pattern that matches no newline matches inside the line. *)
Lemma match_here_line (p : list item) (l x : string) :
  nl_free p = true -> one_line l = true ->
  match_here p (l ++ String nl x) =
  option_map (fun r => r ++ String nl x) (match_here p l).
Proof.
  revert l. induction p as [|i p IH]; intros l Hp Hl; simpl; [reflexivity|].
  simpl in Hp. apply andb_true_iff in Hp as [Hi Hp].
  destruct l as [|c l]; simpl.
  - apply negb_true_iff in Hi. now rewrite Hi.
  - simpl in Hl. apply andb_true_iff in Hl as [_ Hl].
    destruct (item_matches i c); [now apply IH | reflexivity].
Qed.

Lemma match_here_one_line (p : list item) (l r : string) :
  one_line l = true -> match_here p l = Some r -> one_line r = true.
Proof.
  intros Hl H. destruct (match_here_split _ _ _ H) as (m & -> & _).
  rewrite one_line_app in Hl. now apply andb_true_iff in Hl as [_ Hr].
Qed.

Lemma match_here_escaped_starts (a : string) (p : list item) (l r : string) :
  match_here (escaped a ++ p)%list l = Some r -> starts_with a l = true.
Proof.
  revert l. induction a as [|c a IH]; intros l; simpl; [reflexivity|].
  destruct l as [|d l]; [discriminate|].
  destruct (Ascii.eqb c d); [apply IH | discriminate].
Qed.

(** *** [scan] *)

Section Scan.
Variable p : list item.
Variable repl : string.

Lemma scan_skip (m x : string) (b : bool) :
  scan p repl b (String.length m) (m ++ x) = scan p repl (ends_nl b m) 0 x.
Proof.
  revert b. induction m as [|c m IH]; intros b; simpl.
  - destruct x; reflexivity.
  - apply IH.
Qed.

Lemma ends_nl_line (m : string) (b : bool) :
  m <> "" -> one_line m = true -> ends_nl b m = false.
Proof.
  revert b. induction m as [|c m IH]; intros b Hm H; [contradiction|].
  simpl in *. apply andb_true_iff in H as [Hc H].
  apply negb_true_iff in Hc. rewrite Hc.
  destruct m as [|d m]; [reflexivity|]. apply IH; [discriminate | assumption].
Qed.

Lemma ends_nl_app_nl (m : string) (b : bool) :
  ends_nl b (m ++ String nl "") = true.
Proof.
  revert b. induction m as [|c m IH]; intros b; simpl; [reflexivity | apply IH].
Qed.

(** At a line start where the pattern matches, the match is replaced
    and the scan goes on after it. *)
Lemma scan_match (s r : string) :
  p <> [] -> match_here p s = Some r ->
  exists m, s = m ++ r /\ String.length m = List.length p /\
            scan p repl true 0 s = repl ++ scan p repl (ends_nl true m) 0 r.
Proof.
  intros Hp H. destruct (match_here_split _ _ _ H) as (m & -> & Hm).
  exists m. split; [reflexivity|]. split; [assumption|].
  destruct m as [|c m].
  - destruct p; [contradiction | discriminate].
  - simpl. simpl in H. rewrite H. simpl. f_equal.
    simpl in Hm. rewrite <- Hm. simpl. apply scan_skip.
Qed.

(** Away from a line start the text of the line is copied. *)
Lemma scan_inside (l x : string) :
  one_line l = true ->
  scan p repl false 0 (l ++ x) = l ++ scan p repl false 0 x.
Proof.
  induction l as [|c l IH]; simpl; intros H; [reflexivity|].
  apply andb_true_iff in H as [Hc H]. apply negb_true_iff in Hc.
  rewrite Hc. now rewrite IH.
Qed.

Lemma scan_inside_nl (l x : string) :
  one_line l = true ->
  scan p repl false 0 (l ++ String nl x) =
  l ++ String nl (scan p repl true 0 x).
Proof. intros H. now rewrite scan_inside. Qed.

Lemma scan_inside_end (l : string) :
  one_line l = true -> scan p repl false 0 l = l.
Proof.
  intros H. rewrite <- (app_empty_r l) at 1.
  rewrite scan_inside by assumption. simpl. apply app_empty_r.
Qed.

(** At a line start where the pattern does not match, the first
    character is copied. *)
Lemma scan_no_match (c : ascii) (s : string) :
  match_here p (String c s) = None ->
  scan p repl true 0 (String c s) =
  String c (scan p repl (Ascii.eqb c nl) 0 s).
Proof. intros H. simpl scan. simpl in H. rewrite H. reflexivity. Qed.

End Scan.

End TextFacts.

(* ================================================================== *)
(** ** [re.sub], line by line *)

Module SubFacts.
Import Text TextFacts.

Lemma sub_line_one_line (p : list item) (repl l : string) :
  one_line repl = true -> one_line l = true ->
  one_line (sub_line p repl l) = true.
Proof.
  intros Hr Hl. unfold sub_line.
  destruct (match_here p l) as [r|] eqn:E; [|assumption].
  rewrite one_line_app, Hr. simpl.
  now apply (match_here_one_line p l).
Qed.

(** One line followed by a newline, for a pattern that matches no
    newline. *)
Lemma scan_line_nl (p : list item) (repl l x : string) :
  p <> [] -> nl_free p = true -> one_line l = true ->
  scan p repl true 0 (l ++ String nl x) =
  sub_line p repl l ++ String nl (scan p repl true 0 x).
Proof.
  intros Hp Hf Hl. unfold sub_line.
  pose proof (match_here_line p l x Hf Hl) as Hm.
  destruct (match_here p l) as [r|] eqn:E; simpl in Hm.
  - destruct (scan_match p repl _ _ Hp Hm) as (m & Hs & Hlen & ->).
    destruct (match_here_split _ _ _ E) as (m' & -> & Hlen').
    rewrite app_assoc_s in Hs.
    destruct (app_inj_length m m' _ _ (eq_trans Hlen (eq_sym Hlen')) (eq_sym Hs))
      as [-> _].
    rewrite one_line_app in Hl. apply andb_true_iff in Hl as [Hm' Hr].
    rewrite ends_nl_line; [| |assumption].
    + rewrite scan_inside_nl by assumption. now rewrite app_assoc_s.
    + intros ->. destruct p; [contradiction | discriminate].
  - destruct l as [|c l].
    + cbn [append] in *. now rewrite scan_no_match.
    + cbn [append] in *.
      rewrite scan_no_match by assumption.
      simpl in Hl. apply andb_true_iff in Hl as [Hc Hl].
      apply negb_true_iff in Hc. rewrite Hc.
      now rewrite scan_inside_nl.
Qed.

(** The last line. *)
Lemma scan_line_end (p : list item) (repl l : string) :
  p <> [] -> one_line l = true ->
  scan p repl true 0 l = sub_line p repl l.
Proof.
  intros Hp Hl. unfold sub_line.
  destruct (match_here p l) as [r|] eqn:E.
  - destruct (scan_match p repl _ _ Hp E) as (m & -> & Hlen & ->).
    rewrite one_line_app in Hl. apply andb_true_iff in Hl as [Hm Hr].
    rewrite ends_nl_line; [| |assumption].
    + now rewrite scan_inside_end.
    + intros ->. destruct p; [contradiction | discriminate].
  - destruct l as [|c l]; [reflexivity|].
    rewrite scan_no_match by assumption.
    simpl in Hl. apply andb_true_iff in Hl as [Hc Hl].
    apply negb_true_iff in Hc. rewrite Hc.
    now rewrite scan_inside_end.
Qed.

(** [re.sub] with [^p] and [re.MULTILINE] works line by line. *)
Lemma sub_multiline_lines (p : list item) (repl : string) (ls : list string) :
  p <> [] -> nl_free p = true ->
  Forall (fun l => one_line l = true) ls ->
  sub_multiline p repl (unlines ls) = unlines (map (sub_line p repl) ls).
Proof.
  intros Hp Hf. unfold sub_multiline.
  induction ls as [|l ls IH]; intros H; [reflexivity|].
  inversion H as [|? ? Hl Hls]; subst.
  destruct ls as [|l' ls].
  - simpl. now apply scan_line_end.
  - rewrite unlines_cons2. simpl map. rewrite unlines_cons2.
    rewrite scan_line_nl by assumption. f_equal. f_equal.
    apply IH. assumption.
Qed.

(** The pattern [^q\n]: a line is removed with its newline when [q]
    matches the whole of it. *)
Lemma match_here_whole_line (q : list item) (l x : string) :
  nl_free q = true -> one_line l = true ->
  match_here (q ++ [Lit nl])%list (l ++ String nl x) =
  if full_match q l then Some x else None.
Proof.
  intros Hq Hl. rewrite match_here_app, match_here_line by assumption.
  unfold full_match.
  destruct (match_here q l) as [r|] eqn:E; cbn [option_map]; [|reflexivity].
  pose proof (match_here_one_line _ _ _ Hl E) as Hr.
  destruct r as [|c r]; cbn [append match_here item_matches].
  - now rewrite Ascii.eqb_refl.
  - cbn [one_line] in Hr. apply andb_true_iff in Hr as [Hc _].
    apply negb_true_iff in Hc. rewrite Ascii.eqb_sym in Hc. now rewrite Hc.
Qed.

Lemma match_here_needs_nl (q : list item) (l : string) :
  one_line l = true -> match_here (q ++ [Lit nl])%list l = None.
Proof.
  intros Hl. rewrite match_here_app.
  destruct (match_here q l) as [r|] eqn:E; [|reflexivity].
  pose proof (match_here_one_line _ _ _ Hl E) as Hr.
  destruct r as [|c r]; cbn [match_here item_matches]; [reflexivity|].
  cbn [one_line] in Hr. apply andb_true_iff in Hr as [Hc _].
  apply negb_true_iff in Hc. rewrite Ascii.eqb_sym in Hc. now rewrite Hc.
Qed.

Lemma scan_removal_nl (q : list item) (l x : string) :
  nl_free q = true -> one_line l = true ->
  scan (q ++ [Lit nl])%list "" true 0 (l ++ String nl x) =
  if full_match q l then scan (q ++ [Lit nl])%list "" true 0 x
  else l ++ String nl (scan (q ++ [Lit nl])%list "" true 0 x).
Proof.
  intros Hq Hl. pose proof (match_here_whole_line q l x Hq Hl) as Hm.
  destruct (full_match q l).
  - assert (Hp : (q ++ [Lit nl])%list <> []) by (now destruct q).
    destruct (scan_match _ "" _ _ Hp Hm) as (m & Hs & Hlen & ->).
    simpl. f_equal.
    assert (m = l ++ String nl "") as ->.
    { apply (app_inv_tail_s _ _ x). rewrite <- Hs. now rewrite app_assoc_s. }
    apply ends_nl_app_nl.
  - destruct l as [|c l].
    + cbn [append] in *. now rewrite scan_no_match.
    + cbn [append] in *.
      rewrite scan_no_match by assumption.
      simpl in Hl. apply andb_true_iff in Hl as [Hc Hl].
      apply negb_true_iff in Hc. rewrite Hc.
      now rewrite scan_inside_nl.
Qed.

Lemma scan_removal_end (q : list item) (l : string) :
  one_line l = true ->
  scan (q ++ [Lit nl])%list "" true 0 l = l.
Proof.
  intros Hl. pose proof (match_here_needs_nl q l Hl) as Hm.
  destruct l as [|c l]; [reflexivity|].
  rewrite scan_no_match by assumption.
  simpl in Hl. apply andb_true_iff in Hl as [Hc Hl].
  apply negb_true_iff in Hc. rewrite Hc.
  now rewrite scan_inside_end.
Qed.

Lemma sub_multiline_removal (q : list item) (ls : list string) :
  nl_free q = true ->
  Forall (fun l => one_line l = true) ls ->
  sub_multiline (q ++ [Lit nl])%list "" (unlines ls) =
  unlines (drop_lines (full_match q) ls).
Proof.
  intros Hq. unfold sub_multiline.
  induction ls as [|l ls IH]; intros H; [reflexivity|].
  inversion H as [|? ? Hl Hls]; subst.
  destruct ls as [|l' ls].
  - simpl. now apply scan_removal_end.
  - rewrite unlines_cons2, scan_removal_nl by assumption.
    specialize (IH Hls).
    change (drop_lines (full_match q) (l :: l' :: ls))
      with (if full_match q l then drop_lines (full_match q) (l' :: ls)
            else l :: drop_lines (full_match q) (l' :: ls)).
    destruct (full_match q l); [exact IH|].
    rewrite IH.
    destruct (drop_lines (full_match q) (l' :: ls)) as [|d ds] eqn:E.
    + exfalso. clear - E. revert l' E.
      induction ls as [|a ls IHl]; intros l' E; [discriminate|].
      change (drop_lines (full_match q) (l' :: a :: ls))
        with (if full_match q l' then drop_lines (full_match q) (a :: ls)
              else l' :: drop_lines (full_match q) (a :: ls)) in E.
      destruct (full_match q l'); [now apply (IHl a) | discriminate].
    + now rewrite unlines_cons2.
Qed.

End SubFacts.

(* ================================================================== *)
(** ** The two rewrites, line by line *)

Module CleanerFacts.
Import Text Cleaner TextFacts SubFacts.

Lemma escaped_app (a b : string) :
  escaped (a ++ b) = (escaped a ++ escaped b)%list.
Proof.
  unfold escaped. induction a as [|c a IH]; simpl; [reflexivity|].
  now rewrite IH.
Qed.

Lemma starts_with_app (a b l : string) :
  starts_with (a ++ b) l = true -> starts_with a l = true.
Proof.
  revert l. induction a as [|c a IH]; intros l; simpl; [reflexivity|].
  destruct l as [|d l]; [discriminate|].
  intros H. apply andb_true_iff in H as [-> H]. simpl. now apply IH.
Qed.

Lemma starts_with_append (a r : string) : starts_with a (a ++ r) = true.
Proof.
  induction a as [|c a IH]; simpl; [reflexivity|].
  now rewrite Ascii.eqb_refl.
Qed.

(** *** The first step, by lines *)

Lemma drop_lines_cons2 (f : string -> bool) (l l' : string) ls :
  drop_lines f (l :: l' :: ls) =
  if f l then drop_lines f (l' :: ls) else l :: drop_lines f (l' :: ls).
Proof. reflexivity. Qed.

Lemma drop_lines_not_nil (f : string -> bool) (ls : list string) :
  ls <> [] -> drop_lines f ls <> [].
Proof.
  induction ls as [|l ls IH]; [contradiction|]. intros _.
  destruct ls as [|l' ls]; [discriminate|].
  rewrite drop_lines_cons2. destruct (f l); [|discriminate].
  apply IH. discriminate.
Qed.

Lemma drop_lines_Forall (P : string -> Prop) (f : string -> bool) ls :
  Forall P ls -> Forall P (drop_lines f ls).
Proof.
  induction ls as [|l ls IH]; intros H; [constructor|].
  inversion H; subst. destruct ls as [|l' ls]; [assumption|].
  rewrite drop_lines_cons2. destruct (f l); auto.
Qed.

Lemma drop_lines_ext (f g : string -> bool) ls :
  (forall l, In l ls -> f l = g l) -> drop_lines f ls = drop_lines g ls.
Proof.
  induction ls as [|l ls IH]; intros H; [reflexivity|].
  destruct ls as [|l' ls]; [reflexivity|].
  rewrite !drop_lines_cons2, (H l) by now left.
  rewrite IH by (intros; apply H; now right). reflexivity.
Qed.

Lemma removal_pattern_split :
  removal_pattern = ((escaped "#include " ++ raw _GTEST_KEY) ++ [Lit nl])%list.
Proof. reflexivity. Qed.

Lemma remove_deprecated_lines (content : string) :
  remove_deprecated content = unlines (lines_after_removal content).
Proof.
  unfold remove_deprecated, lines_after_removal.
  destruct (contains _GTEST_VALUE content).
  - rewrite <- (unlines_lines content) at 1.
    rewrite removal_pattern_split.
    apply sub_multiline_removal; [reflexivity | apply lines_one_line].
  - symmetry. apply unlines_lines.
Qed.

Lemma lines_after_removal_one_line (content : string) :
  Forall (fun l => one_line l = true) (lines_after_removal content).
Proof.
  unfold lines_after_removal. destruct (contains _GTEST_VALUE content).
  - apply drop_lines_Forall, lines_one_line.
  - apply lines_one_line.
Qed.

Lemma lines_after_removal_not_nil (content : string) :
  lines_after_removal content <> [].
Proof.
  unfold lines_after_removal. destruct (contains _GTEST_VALUE content).
  - apply drop_lines_not_nil, lines_not_nil.
  - apply lines_not_nil.
Qed.

(** *** The loop over the table, by lines *)

Lemma table_ok : forallb entry_ok _IWYU_MAPPING = true.
Proof. reflexivity. Qed.

Lemma line_entry_one_line kv l :
  entry_ok kv = true -> one_line l = true -> one_line (line_entry l kv) = true.
Proof.
  intros H Hl. apply andb_true_iff in H as [_ H].
  now apply sub_line_one_line.
Qed.

Lemma fold_line_entry_one_line tbl l :
  forallb entry_ok tbl = true -> one_line l = true ->
  one_line (fold_left line_entry tbl l) = true.
Proof.
  revert l. induction tbl as [|kv tbl IH]; intros l H Hl; [assumption|].
  simpl in H. apply andb_true_iff in H as [Hkv H].
  simpl. apply IH; [assumption|]. now apply line_entry_one_line.
Qed.

Lemma apply_entry_lines kv ls :
  entry_ok kv = true -> Forall (fun l => one_line l = true) ls ->
  apply_entry (unlines ls) kv = unlines (map (fun l => line_entry l kv) ls).
Proof.
  intros H Hls. apply andb_true_iff in H as [H _].
  unfold apply_entry. apply sub_multiline_lines; [discriminate | assumption..].
Qed.

Lemma fold_apply_entry_lines tbl ls :
  forallb entry_ok tbl = true -> Forall (fun l => one_line l = true) ls ->
  fold_left apply_entry tbl (unlines ls) =
  unlines (map (fold_left line_entry tbl) ls).
Proof.
  revert ls. induction tbl as [|kv tbl IH]; intros ls H Hls.
  - simpl. now rewrite map_id.
  - simpl in H. apply andb_true_iff in H as [Hkv H].
    simpl fold_left. rewrite apply_entry_lines by assumption.
    rewrite IH; [now rewrite map_map | assumption |].
    apply Forall_map. eapply Forall_impl; [|exact Hls].
    intros l Hl. now apply line_entry_one_line.
Qed.

(** [_modified_content], line by line. *)
Lemma modified_content_unlines (content : string) :
  _modified_content content =
  unlines (map rewrite_line (lines_after_removal content)).
Proof.
  unfold _modified_content. rewrite remove_deprecated_lines.
  apply fold_apply_entry_lines;
    [exact table_ok | apply lines_after_removal_one_line].
Qed.

Lemma modified_content_lines (content : string) :
  lines (_modified_content content) =
  map rewrite_line (lines_after_removal content).
Proof.
  rewrite modified_content_unlines. apply lines_unlines.
  - pose proof (lines_after_removal_not_nil content).
    destruct (lines_after_removal content); [contradiction | discriminate].
  - apply Forall_map. eapply Forall_impl;
      [|apply lines_after_removal_one_line].
    intros l Hl. now apply (fold_line_entry_one_line _IWYU_MAPPING).
Qed.

Lemma lines_remove_deprecated (content : string) :
  lines (remove_deprecated content) = lines_after_removal content.
Proof.
  rewrite remove_deprecated_lines. apply lines_unlines.
  - apply lines_after_removal_not_nil.
  - apply lines_after_removal_one_line.
Qed.

(** *** One line through the table *)

Lemma line_entry_no_match kv l :
  starts_with ("#include " ++ fst kv) l = false -> line_entry l kv = l.
Proof.
  intros H. unfold line_entry, sub_line, entry_pattern.
  rewrite <- escaped_app.
  destruct (match_here _ l) as [r|] eqn:E; [|reflexivity].
  rewrite <- (app_nil_r (escaped _)) in E.
  apply match_here_escaped_starts in E. congruence.
Qed.

Lemma fold_line_entry_other tbl l :
  existsb (fun kv => starts_with ("#include " ++ fst kv) l) tbl = false ->
  fold_left line_entry tbl l = l.
Proof.
  induction tbl as [|kv tbl IH]; intros H; [reflexivity|].
  simpl in H. apply orb_false_iff in H as [Hkv H].
  simpl. rewrite line_entry_no_match by assumption. now apply IH.
Qed.

Lemma rewrite_line_other (l : string) :
  names_key l = false -> rewrite_line l = l.
Proof. apply fold_line_entry_other. Qed.

Lemma names_key_include (l : string) :
  names_key l = true -> starts_with "#include " l = true.
Proof.
  unfold names_key. intros H. apply existsb_exists in H as (kv & _ & H).
  now apply starts_with_app in H.
Qed.

Lemma rewrite_line_not_include (l : string) :
  starts_with "#include " l = false -> rewrite_line l = l.
Proof.
  intros H. apply rewrite_line_other.
  destruct (names_key l) eqn:E; [|reflexivity].
  apply names_key_include in E. congruence.
Qed.

Lemma line_entry_keeps_marker kv l :
  starts_with "#include " (line_entry l kv) = starts_with "#include " l.
Proof.
  unfold line_entry, sub_line, entry_pattern.
  destruct (match_here _ l) as [r|] eqn:E; [|reflexivity].
  apply match_here_escaped_starts in E. rewrite E.
  rewrite app_assoc_s. apply starts_with_append.
Qed.

Lemma rewrite_line_keeps_marker (l : string) :
  starts_with "#include " (rewrite_line l) = starts_with "#include " l.
Proof.
  unfold rewrite_line.
  generalize _IWYU_MAPPING as tbl. intros tbl. revert l.
  induction tbl as [|kv tbl IH]; intros l; [reflexivity|].
  cbn [fold_left]. now rewrite IH, line_entry_keeps_marker.
Qed.

Lemma rewrite_line_entry (old new rest : string) :
  In (old, new) _IWYU_MAPPING ->
  rewrite_line ("#include " ++ old ++ rest) = "#include " ++ new ++ rest.
Proof.
  intros H. simpl in H.
  repeat (destruct H as [[= <- <-]|H]; [reflexivity|]).
  contradiction.
Qed.

Lemma removal_matches_include (l : string) :
  removal_matches l = true -> starts_with "#include " l = true.
Proof.
  unfold removal_matches, full_match. intros H.
  destruct (match_here _ l) as [r|] eqn:E; [|discriminate].
  now apply match_here_escaped_starts in E.
Qed.

Lemma removal_matches_deprecated : removal_matches deprecated_line = true.
Proof. reflexivity. Qed.

Lemma starts_with_split (a l : string) :
  starts_with a l = true -> exists r, l = a ++ r.
Proof.
  revert l. induction a as [|c a IH]; intros l; cbn [starts_with].
  - intros _. now exists l.
  - destruct l as [|d l]; [discriminate|].
    intros H. apply andb_true_iff in H as [Hc H].
    apply Ascii.eqb_eq in Hc as ->. destruct (IH l H) as (r & ->).
    now exists r.
Qed.

(** A line that names a key is [#include ], the key, and a rest. *)
Lemma names_key_split (l : string) :
  names_key l = true ->
  exists old new rest,
    In (old, new) _IWYU_MAPPING /\ l = "#include " ++ old ++ rest.
Proof.
  unfold names_key. intros H.
  apply existsb_exists in H as ([old new] & Hin & H).
  apply starts_with_split in H as (rest & ->).
  exists old, new, rest. split; [assumption|]. cbn [fst].
  now rewrite app_assoc_s.
Qed.

(** No new spelling of the table begins with a key, or looks like the
    deprecated include. *)
Lemma rewritten_line_settled (old new rest : string) :
  In (old, new) _IWYU_MAPPING ->
  rewrite_line ("#include " ++ new ++ rest) = "#include " ++ new ++ rest
  /\ removal_matches ("#include " ++ new ++ rest) = false.
Proof.
  intros H. cbn [In _IWYU_MAPPING] in H.
  repeat (destruct H as [[= <- <-]|H]; [split; reflexivity|]).
  contradiction.
Qed.

Lemma rewrite_line_idempotent (l : string) :
  rewrite_line (rewrite_line l) = rewrite_line l.
Proof.
  destruct (names_key l) eqn:E.
  - apply names_key_split in E as (old & new & rest & Hin & ->).
    rewrite (rewrite_line_entry old new rest Hin).
    now apply (rewritten_line_settled old new rest).
  - now rewrite !(rewrite_line_other l E).
Qed.

Lemma rewrite_line_not_removed (l : string) :
  (removal_matches l = true -> l = deprecated_line) ->
  removal_matches (rewrite_line l) = false.
Proof.
  intros Hex. destruct (names_key l) eqn:E.
  - apply names_key_split in E as (old & new & rest & Hin & ->).
    rewrite (rewrite_line_entry old new rest Hin).
    now apply (rewritten_line_settled old new rest).
  - rewrite (rewrite_line_other l E).
    destruct (removal_matches l) eqn:Er; [|reflexivity].
    rewrite (Hex eq_refl) in E. discriminate.
Qed.

Lemma drop_lines_none (f : string -> bool) (ls : list string) :
  (forall l, In l ls -> f l = false) -> drop_lines f ls = ls.
Proof.
  induction ls as [|l ls IH]; intros H; [reflexivity|].
  destruct ls as [|l' ls]; [reflexivity|].
  rewrite drop_lines_cons2, (H l) by now left.
  f_equal. apply IH. intros x Hx. apply H. now right.
Qed.

Lemma drop_lines_incl (f : string -> bool) (ls : list string) (l : string) :
  In l (drop_lines f ls) -> In l ls.
Proof.
  induction ls as [|a ls IH]; [intros []|].
  destruct ls as [|a' ls]; [trivial|].
  rewrite drop_lines_cons2. destruct (f a).
  - intros H. right. now apply IH.
  - intros [<-|H]; [now left | right; now apply IH].
Qed.

Lemma lines_after_removal_incl (content l : string) :
  In l (lines_after_removal content) -> In l (lines content).
Proof.
  unfold lines_after_removal. destruct (contains _GTEST_VALUE content).
  - apply drop_lines_incl.
  - trivial.
Qed.

End CleanerFacts.

(* ================================================================== *)
(** ** Properties of the two rewrites *)

Module CleanerClaims.
Import Text Cleaner Samples TextFacts SubFacts CleanerFacts.

Lemma line_edit_rewrite (ls : list string) :
  line_edit "#include " ls (map rewrite_line ls).
Proof.
  induction ls as [|l ls IH]; [constructor|].
  cbn [map]. destruct (starts_with "#include " l) eqn:E.
  - now apply edit_change.
  - rewrite rewrite_line_not_include by assumption. now apply edit_keep.
Qed.

Lemma line_edit_removal (ls : list string) :
  line_edit "#include " ls (map rewrite_line (drop_lines removal_matches ls)).
Proof.
  induction ls as [|l ls IH]; [constructor|].
  destruct ls as [|l' ls]; [apply line_edit_rewrite|].
  rewrite drop_lines_cons2. destruct (removal_matches l) eqn:E.
  - apply edit_remove; [now apply removal_matches_include | exact IH].
  - cbn [map]. destruct (starts_with "#include " l) eqn:E'.
    + now apply edit_change.
    + rewrite rewrite_line_not_include by assumption. now apply edit_keep.
Qed.

Lemma filter_rewrite (ls : list string) :
  filter not_include (map rewrite_line ls) = filter not_include ls.
Proof.
  induction ls as [|l ls IH]; [reflexivity|].
  cbn [map filter]. rewrite IH.
  replace (not_include (rewrite_line l)) with (not_include l)
    by (unfold not_include; now rewrite rewrite_line_keeps_marker).
  destruct (not_include l) eqn:E; [|reflexivity].
  apply negb_true_iff in E. now rewrite rewrite_line_not_include.
Qed.

Lemma filter_removal (ls : list string) :
  filter not_include (drop_lines removal_matches ls) = filter not_include ls.
Proof.
  induction ls as [|l ls IH]; [reflexivity|].
  destruct ls as [|l' ls]; [reflexivity|].
  rewrite drop_lines_cons2. destruct (removal_matches l) eqn:E.
  - rewrite IH. cbn [filter].
    replace (not_include l) with false; [reflexivity|].
    unfold not_include. now rewrite (removal_matches_include l E).
  - cbn [filter]. now rewrite IH.
Qed.

(** C10.  For every content, the lines of [_modified_content content] are
    the lines of [content] where only lines that begin with [#include ]
    were changed or removed; the lines that do not begin with [#include ]
    are the same, in the same order, before and after. *)
Theorem only_include_lines_touched (content : string) :
  line_edit "#include " (lines content) (lines (_modified_content content))
  /\ filter not_include (lines (_modified_content content))
     = filter not_include (lines content).
Proof.
  rewrite modified_content_lines. unfold lines_after_removal.
  destruct (contains _GTEST_VALUE content).
  - split; [apply line_edit_removal|].
    now rewrite filter_rewrite, filter_removal.
  - split; [apply line_edit_rewrite | apply filter_rewrite].
Qed.

(** C2 (as amended).  For every content and every entry (old, new) of
    the table: a line of the content as the first step leaves it that
    begins with [#include old] is, at the same place in the result, the
    line where that prefix is [#include new] and the rest is the same; the
    first step leaves a content without ["test/gtest.h"] as it is; and the
    sample input of the specification rewrites to its sample output. *)
Theorem table_entry_rewrites_prefix :
  (forall content old new rest i,
      In (old, new) _IWYU_MAPPING ->
      nth_error (lines (remove_deprecated content)) i
        = Some ("#include " ++ old ++ rest) ->
      nth_error (lines (_modified_content content)) i
        = Some ("#include " ++ new ++ rest))
  /\ (forall content,
         contains _GTEST_VALUE content = false ->
         remove_deprecated content = content)
  /\ _modified_content
       (include_line "gmock/gmock.h" ++ include_line "gtest/gtest.h"
        ++ "int main(){}" ++ NL)
     = include_line "test/gmock.h" ++ include_line "test/gtest.h"
       ++ "int main(){}" ++ NL.
Proof.
  split; [|split].
  - intros content old new rest i Hin Hi.
    rewrite modified_content_lines, <- lines_remove_deprecated.
    rewrite nth_error_map, Hi. simpl. f_equal.
    now apply rewrite_line_entry.
  - intros content H. unfold remove_deprecated. now rewrite H.
  - reflexivity.
Qed.

Lemma table_entry_rewrites_prefix_witness :
  In ("<sys/socket.h>", quoted "rtc_base/net_helpers.h") _IWYU_MAPPING
  /\ nth_error (lines (remove_deprecated sample_socket)) 0
     = Some ("#include " ++ "<sys/socket.h>" ++ "  // sockets")
  /\ nth_error (lines (_modified_content sample_socket)) 0
     = Some ("#include " ++ quoted "rtc_base/net_helpers.h" ++ "  // sockets").
Proof.
  assert (H1 : In ("<sys/socket.h>", quoted "rtc_base/net_helpers.h")
                  _IWYU_MAPPING) by (simpl; auto).
  assert (H2 : nth_error (lines (remove_deprecated sample_socket)) 0
               = Some ("#include " ++ "<sys/socket.h>" ++ "  // sockets"))
    by reflexivity.
  split; [exact H1 | split; [exact H2|]].
  exact (proj1 table_entry_rewrites_prefix sample_socket _ _ _ 0 H1 H2).
Defined.

(** C2 as stated fails: with ["test/gtest.h"] in the content (here in a
    comment) the line [#include "gtest/gtest.h"] is removed by the first
    step, and no line of the result spells the replacement. *)
Lemma table_entry_line_removed_instead :
  In (_GTEST_KEY, _GTEST_VALUE) _IWYU_MAPPING
  /\ nth_error (lines sample_shadowed) 0 = Some ("#include " ++ _GTEST_KEY ++ "")
  /\ _modified_content sample_shadowed = "// " ++ _GTEST_VALUE ++ NL
  /\ ~ In ("#include " ++ _GTEST_VALUE ++ "")
          (lines (_modified_content sample_shadowed)).
Proof.
  split; [simpl; auto|]. split; [reflexivity|]. split; [reflexivity|].
  vm_compute. intros [H|[H|[]]]; discriminate.
Qed.

(** C3 (as amended).  For every content that holds ["test/gtest.h"] and
    in which the removal pattern matches no line but the deprecated one:
    the lines of the result are the lines of the content without the
    newline-ended lines equal to [#include "gtest/gtest.h"], each passed
    through the table; a line that names no key of the table, and the
    canonical include line, pass through the table unchanged. *)
Theorem deprecated_include_removed (content : string) :
  contains _GTEST_VALUE content = true ->
  (forall l, In l (lines content) ->
             removal_matches l = true -> l = deprecated_line) ->
  lines (_modified_content content)
  = map rewrite_line
        (drop_lines (String.eqb deprecated_line) (lines content))
  /\ (forall l, names_key l = false -> rewrite_line l = l)
  /\ rewrite_line ("#include " ++ _GTEST_VALUE) = "#include " ++ _GTEST_VALUE.
Proof.
  intros Hc Hex. split; [|split].
  - rewrite modified_content_lines. unfold lines_after_removal. rewrite Hc.
    f_equal. apply drop_lines_ext. intros l Hl.
    destruct (removal_matches l) eqn:E.
    + rewrite (Hex l Hl E). symmetry. apply String.eqb_refl.
    + symmetry. apply String.eqb_neq. intros <-.
      rewrite removal_matches_deprecated in E. discriminate.
  - exact rewrite_line_other.
  - reflexivity.
Qed.

Lemma sample_both_exact (l : string) :
  In l (lines sample_both) -> removal_matches l = true -> l = deprecated_line.
Proof.
  intros H. vm_compute in H.
  destruct H as [<-|[<-|[<-|[<-|[]]]]]; vm_compute; intros E;
    (reflexivity || discriminate E).
Defined.

Lemma deprecated_include_removed_witness :
  contains _GTEST_VALUE sample_both = true
  /\ lines (_modified_content sample_both)
     = map rewrite_line
           (drop_lines (String.eqb deprecated_line) (lines sample_both)).
Proof.
  split; [reflexivity|].
  exact (proj1 (deprecated_include_removed sample_both eq_refl
                  sample_both_exact)).
Defined.

(** C3 as stated fails: next to the removal, the table rewrites another
    line of the content. *)
Lemma other_line_rewritten_too :
  contains _GTEST_VALUE sample_both = true
  /\ In deprecated_line (lines sample_both)
  /\ In ("#include " ++ quoted "gmock/gmock.h") (lines sample_both)
  /\ ~ In ("#include " ++ quoted "gmock/gmock.h")
          (lines (_modified_content sample_both))
  /\ _modified_content sample_both
     <> unlines (filter (fun l => negb (String.eqb l deprecated_line))
                        (lines sample_both)).
Proof.
  split; [reflexivity|]. split; [vm_compute; auto|].
  split; [vm_compute; auto|]. split.
  - vm_compute. intros [H|[H|[H|[]]]]; discriminate.
  - vm_compute. discriminate.
Qed.

(** X5.  Away from the lines that only the unescaped dot lets the
    removal pattern match, the rewrite is idempotent. *)
Lemma modified_content_idempotent_exact (content : string) :
  (forall l, In l (lines content) ->
             removal_matches l = true -> l = deprecated_line) ->
  _modified_content (_modified_content content) = _modified_content content.
Proof.
  intros Hex.
  rewrite <- (unlines_lines (_modified_content (_modified_content content))).
  rewrite <- (unlines_lines (_modified_content content)) at 2.
  f_equal.
  rewrite (modified_content_lines (_modified_content content)).
  assert (Hkeep : lines_after_removal (_modified_content content)
                  = lines (_modified_content content)).
  { unfold lines_after_removal.
    destruct (contains _GTEST_VALUE (_modified_content content));
      [|reflexivity].
    apply drop_lines_none. intros l Hl.
    rewrite modified_content_lines in Hl.
    apply in_map_iff in Hl as (l0 & <- & Hl0).
    apply rewrite_line_not_removed, Hex.
    now apply lines_after_removal_incl. }
  rewrite Hkeep, modified_content_lines, map_map.
  apply map_ext. intros l. apply rewrite_line_idempotent.
Qed.

(** C4, at the failing input.  The first pass turns the deprecated include
    into the canonical one; the second pass then finds ["test/gtest.h"] and
    its pattern, whose dot is not escaped, removes the second line. *)
Theorem second_pass_removes_near_miss :
  _modified_content sample_near_miss
  = include_line "test/gtest.h" ++ include_line "gtest/gtestXh"
  /\ _modified_content (_modified_content sample_near_miss)
     = include_line "test/gtest.h"
  /\ _modified_content (_modified_content sample_near_miss)
     <> _modified_content sample_near_miss.
Proof.
  split; [reflexivity|]. split; [reflexivity|]. vm_compute. discriminate.
Qed.

(** [_modified_output] changes a report only when the content holds the
    canonical spelling and the whole report is the one matched line,
    alone or followed by one newline. *)
Lemma modified_output_cases (output content : string) :
  _modified_output output content = output
  \/ (contains _GTEST_VALUE content = true
      /\ exists rest,
           match_here output_pattern output = Some rest
           /\ (rest = "" \/ rest = NL)
           /\ _modified_output output content = rest).
Proof.
  unfold _modified_output, sub_whole.
  destruct (contains _GTEST_VALUE content); [|now left].
  destruct (match_here output_pattern output) as [rest|]; [|now left].
  destruct (String.eqb_spec rest "") as [->|H1].
  - right. split; [reflexivity|]. exists "". auto.
  - destruct (String.eqb_spec rest NL) as [->|H2].
    + right. split; [reflexivity|]. exists NL. auto.
    + now left.
Qed.

(** C5, at the failing input.  The report has two lines, the second
    proposing the deprecated spelling; the content holds the canonical
    one; the report comes back as it was. *)
Theorem report_line_not_stripped :
  contains _GTEST_VALUE (include_line "test/gtest.h") = true
  /\ In ("+ " ++ _GTEST_KEY) (lines sample_report)
  /\ _modified_output sample_report (include_line "test/gtest.h")
     = sample_report
  /\ _modified_output ("+ " ++ _GTEST_KEY) (include_line "test/gtest.h") = "".
Proof.
  split; [reflexivity|]. split; [vm_compute; auto|].
  split; reflexivity.
Qed.

End CleanerClaims.

(* ================================================================== *)
(** ** Facts about the driver *)

Module DriverFacts.
Import Text Cleaner Driver.

Lemma logged_nil (w : World) : logged [] w = w.
Proof. destruct w. unfold logged. simpl. now rewrite app_nil_r. Qed.

Lemma writes_of_app (a b : list event) :
  writes_of (a ++ b) = (writes_of a ++ writes_of b)%list.
Proof. apply filter_app. Qed.

Lemma runs_of_app (a b : list event) :
  runs_of (a ++ b) = (runs_of a ++ runs_of b)%list.
Proof. apply filter_app. Qed.

(** *** Computations that only add to the trace *)

Lemma appends_ret {A} (a : A) : appends (ret a).
Proof. intros fs. exists (inr a), fs, []. intros t. now rewrite app_nil_r. Qed.

Lemma appends_raise {A} (e : exn) : appends (@raise A e).
Proof. intros fs. exists (inl e), fs, []. intros t. now rewrite app_nil_r. Qed.

Lemma appends_bind {A B} (c : M A) (k : A -> M B) :
  appends c -> (forall a, appends (k a)) -> appends (bind c k).
Proof.
  intros Hc Hk fs. destruct (Hc fs) as (r & fs1 & evs1 & H1).
  destruct r as [e|a].
  - exists (inl e), fs1, evs1. intros t. unfold bind. now rewrite H1.
  - destruct (Hk a fs1) as (r2 & fs2 & evs2 & H2).
    exists r2, fs2, (evs1 ++ evs2)%list. intros t. unfold bind.
    now rewrite H1, H2, app_assoc.
Qed.

Lemma appends_emit (e : event) : appends (emit e).
Proof. intros fs. now exists (inr tt), fs, [e]. Qed.

Lemma appends_is_file (p : string) : appends (is_file p).
Proof.
  intros fs. exists (inr (is_some (fs p))), fs, []. intros t.
  unfold is_file. simpl. now rewrite app_nil_r.
Qed.

Lemma appends_read_text (p : string) : appends (read_text p).
Proof.
  intros fs. unfold read_text. simpl. destruct (fs p) as [c|].
  - exists (inr c), fs, []. intros t. now rewrite app_nil_r.
  - exists (inl OSError), fs, []. intros t. now rewrite app_nil_r.
Qed.

Lemma appends_set_file (p c : string) : appends (set_file p c).
Proof.
  intros fs. exists (inr tt), (store p c fs), []. intros t.
  unfold set_file. simpl. now rewrite app_nil_r.
Qed.

Lemma appends_if {A} (b : bool) (c1 c2 : M A) :
  appends c1 -> appends c2 -> appends (if b then c1 else c2).
Proof. now destruct b. Qed.

Lemma appends_run_query tool cmd : appends (run_query tool cmd).
Proof.
  intros fs. unfold run_query. simpl. destruct (tool cmd fs) as [cp|].
  - now exists (inr cp), fs, [Ran cmd].
  - exists (inl OSError), fs, []. intros t. now rewrite app_nil_r.
Qed.

Lemma appends_run_cleaner cleaner cmd : appends (run_cleaner cleaner cmd).
Proof.
  intros fs. unfold run_cleaner. simpl.
  destruct (cleaner cmd fs) as [[cp fs']|].
  - now exists (inr cp), fs', [Ran cmd].
  - exists (inl OSError), fs, []. intros t. now rewrite app_nil_r.
Qed.

Create HintDb appends.

#[local] Hint Resolve appends_ret appends_raise appends_emit appends_is_file
  appends_read_text appends_set_file appends_run_query appends_run_cleaner
  : appends.

Ltac appends_tac :=
  repeat first
    [ apply appends_bind; [|intros ?]
    | apply appends_if
    | progress auto with appends ].

Section Facts.

Variable suffix : string -> string.
Variable gn_path : string.
Variable gn : list string -> FS -> option CompletedProcess.
Variable generator : list string -> FS -> option CompletedProcess.
Variable cleaner : list string -> FS -> option (CompletedProcess * FS).

Local Abbreviation is_built := (_is_built gn_path gn).
Local Abbreviation apply_cleaner := (apply_include_cleaner_to_file cleaner).
Local Abbreviation loop := (main_loop suffix gn_path gn cleaner).
Local Abbreviation outputs := (processed_outputs suffix gn_path gn cleaner).
Local Abbreviation generate := (_generate_compile_commands generator).
Local Abbreviation run_main := (main suffix gn_path gn generator cleaner).

Lemma appends_is_built f wd : appends (is_built f wd).
Proof. unfold _is_built. appends_tac. Qed.

Lemma appends_apply f sm cmd : appends (apply_cleaner f sm cmd).
Proof.
  unfold apply_include_cleaner_to_file, write_text, print. appends_tac.
Qed.

Lemma appends_loop wd sm cmd fs flag : appends (loop wd sm cmd fs flag).
Proof.
  revert flag. induction fs as [|f fs IH]; intros flag; cbn [main_loop].
  - apply appends_ret.
  - apply appends_if; [apply IH|].
    apply appends_bind; [apply appends_is_built | intros built].
    apply appends_if.
    + apply appends_bind; [apply appends_emit | intros _; apply IH].
    + apply appends_bind; [apply appends_apply | intros out; apply IH].
Qed.

(** The result and the files a computation leaves do not depend on the
    trace it starts from. *)
Lemma appends_logged {A} (c : M A) (evs : list event) (w : World) :
  appends c ->
  fst (c (logged evs w)) = fst (c w)
  /\ w_files (snd (c (logged evs w))) = w_files (snd (c w)).
Proof.
  intros H. destruct w as [fs t].
  destruct (H fs) as (r & fs' & evs' & Hc).
  unfold logged. cbn [w_files w_trace]. rewrite !Hc. now split.
Qed.

(** *** The loop *)

Lemma loop_app wd sm cmd (pre post : list string) flag w :
  loop wd sm cmd (pre ++ post) flag w
  = bind (loop wd sm cmd pre flag) (fun flag' => loop wd sm cmd post flag') w.
Proof.
  revert flag w. induction pre as [|f pre IH]; intros flag w.
  - reflexivity.
  - cbn [app main_loop]. destruct (negb (supported suffix f)); [apply IH|].
    unfold bind in *.
    destruct (is_built f wd w) as [[e|built] w1]; [reflexivity|].
    destruct (negb built).
    + destruct (print _ w1) as [[e|u] w2]; [reflexivity | apply IH].
    + destruct (apply_cleaner f sm cmd w1) as [[e|out] w2];
        [reflexivity | apply IH].
Qed.

End Facts.
End DriverFacts.

(* ================================================================== *)
(** ** Properties of the driver *)

Module DriverClaims.
Import Text Cleaner Driver DriverFacts.

Lemma truthy_true (s : string) : truthy s = true <-> s <> "".
Proof. destruct s; simpl; split; intros; (discriminate || congruence). Qed.

Section Claims.

Variable suffix : string -> string.
Variable gn_path : string.
Variable gn : list string -> FS -> option CompletedProcess.
Variable generator : list string -> FS -> option CompletedProcess.
Variable cleaner : list string -> FS -> option (CompletedProcess * FS).

Local Abbreviation is_built := (_is_built gn_path gn).
Local Abbreviation apply_cleaner := (apply_include_cleaner_to_file cleaner).
Local Abbreviation loop := (main_loop suffix gn_path gn cleaner).
Local Abbreviation outputs := (processed_outputs suffix gn_path gn cleaner).
Local Abbreviation adjusted := (adjusted_outputs suffix gn_path gn cleaner).
Local Abbreviation generate := (_generate_compile_commands generator).
Local Abbreviation before_loop := (main_before_loop generator).
Local Abbreviation run_main := (main suffix gn_path gn generator cleaner).

(** *** [_is_built] *)

Lemma is_built_launched f wd w cp :
  gn (gn_cmd gn_path f wd) (w_files w) = Some cp ->
  is_built f wd w
  = (inr (returncode cp =? 0)%Z, logged [Ran (gn_cmd gn_path f wd)] w).
Proof.
  intros H. unfold _is_built, bind, run_query. now rewrite H.
Qed.

Lemma is_built_not_launched f wd w :
  gn (gn_cmd gn_path f wd) (w_files w) = None ->
  is_built f wd w = (inl OSError, w).
Proof.
  intros H. unfold _is_built, bind, run_query. now rewrite H.
Qed.

(** *** [apply_include_cleaner_to_file] *)

Lemma apply_eval f sm cmd w cp fs1 content :
  cleaner (cmd ++ [f])%list (w_files w) = Some (cp, fs1) ->
  fs1 f = Some content ->
  let out := _modified_output (strip (stdout cp)) content in
  apply_cleaner f sm cmd w
  = (inr out,
     {| w_files := if rewrite_due sm content
                   then store f (_modified_content content) fs1 else fs1;
        w_trace :=
          (w_trace w ++ [Ran (cmd ++ [f])]
           ++ (if negb (returncode cp =? 0)%Z
               then [Printed ("Failed to run include cleaner on " ++ f
                              ++ ", stderr: " ++ strip (stderr cp))]
               else [])
           ++ (if rewrite_due sm content
               then [Wrote f (_modified_content content)] else [])
           ++ [Printed (if truthy out then out
                        else "Successfully ran include cleaner on " ++ f)])%list
     |}).
Proof.
  intros Hc Hf out. subst out. destruct w as [fs t]. cbn [w_files] in Hc.
  unfold apply_include_cleaner_to_file, write_text, print, rewrite_due.
  unfold bind, run_cleaner, read_text, emit, set_file, ret.
  cbn [w_files w_trace]. rewrite Hc. cbn [w_files w_trace].
  destruct (negb (returncode cp =? 0)%Z); cbn [w_files w_trace];
    rewrite Hf;
    destruct sm; cbn [andb];
    try destruct (negb (content =? _modified_content content));
    cbn [w_files w_trace];
    destruct (truthy (_modified_output (strip (stdout cp)) content));
    cbn [w_files w_trace app];
    rewrite <- ?app_assoc; reflexivity.
Qed.

Lemma apply_unreadable f sm cmd w cp fs1 :
  cleaner (cmd ++ [f])%list (w_files w) = Some (cp, fs1) ->
  fs1 f = None ->
  apply_cleaner f sm cmd w
  = (inl OSError,
     {| w_files := fs1;
        w_trace :=
          (w_trace w ++ [Ran (cmd ++ [f])]
           ++ (if negb (returncode cp =? 0)%Z
               then [Printed ("Failed to run include cleaner on " ++ f
                              ++ ", stderr: " ++ strip (stderr cp))]
               else []))%list |}).
Proof.
  intros Hc Hf. destruct w as [fs t]. cbn [w_files] in Hc.
  unfold apply_include_cleaner_to_file, write_text, print.
  unfold bind, run_cleaner, read_text, emit, set_file, ret.
  cbn [w_files w_trace]. rewrite Hc. cbn [w_files w_trace].
  destruct (negb (returncode cp =? 0)%Z); cbn [w_files w_trace];
    rewrite Hf; cbn [app]; rewrite <- ?app_assoc, ?app_nil_r; reflexivity.
Qed.

Lemma apply_not_launched f sm cmd w :
  cleaner (cmd ++ [f])%list (w_files w) = None ->
  apply_cleaner f sm cmd w = (inl OSError, w).
Proof.
  intros Hc. unfold apply_include_cleaner_to_file, bind, run_cleaner.
  now rewrite Hc.
Qed.

(** Without [should_modify] no outcome of the cleaner leads to a write. *)
Lemma apply_print_only_writes f cmd w :
  writes_of (w_trace (snd (apply_cleaner f false cmd w)))
  = writes_of (w_trace w).
Proof.
  destruct (cleaner (cmd ++ [f])%list (w_files w)) as [[cp fs1]|] eqn:Hc.
  - destruct (fs1 f) as [content|] eqn:Hf.
    + rewrite (apply_eval f false cmd w cp fs1 content Hc Hf).
      cbn [snd w_trace rewrite_due andb]. rewrite !writes_of_app.
      destruct (negb (returncode cp =? 0)%Z); cbn; now rewrite app_nil_r.
    + rewrite (apply_unreadable f false cmd w cp fs1 Hc Hf).
      cbn [snd w_trace]. rewrite !writes_of_app.
      destruct (negb (returncode cp =? 0)%Z); cbn; now rewrite app_nil_r.
  - now rewrite (apply_not_launched f false cmd w Hc).
Qed.

(** *** The loop and its flag *)

Lemma loop_outputs wd sm cmd fs flag w :
  loop wd sm cmd fs flag w
  = match outputs wd sm cmd fs w with
    | (inl e, w') => (inl e, w')
    | (inr outs, w') => (inr (existsb truthy outs || flag), w')
    end.
Proof.
  revert flag w. induction fs as [|f fs IH]; intros flag w.
  - reflexivity.
  - cbn [main_loop processed_outputs].
    destruct (negb (supported suffix f)); [apply IH|].
    unfold bind.
    destruct (is_built f wd w) as [[e|built] w1]; [reflexivity|].
    destruct (negb built).
    + destruct (print _ w1) as [[e|u] w2]; [reflexivity | apply IH].
    + destruct (apply_cleaner f sm cmd w1) as [[e|out] w2]; [reflexivity|].
      rewrite IH.
      destruct (outputs wd sm cmd fs w2) as [[e|outs] w3]; [reflexivity|].
      unfold ret. cbn [existsb]. f_equal. f_equal.
      now rewrite orb_assoc, (orb_comm (existsb truthy outs)).
Qed.

(** *** [_generate_compile_commands] and the start of [main] *)

Lemma generate_present wd w :
  is_some (w_files w (compile_commands_path wd)) = true ->
  generate wd w = (inr tt, w).
Proof.
  intros H. unfold _generate_compile_commands, bind, is_file.
  now rewrite H.
Qed.

Lemma generate_failed wd w cp :
  w_files w (compile_commands_path wd) = None ->
  generator (generator_cmd wd)
            (store (compile_commands_path wd) "" (w_files w)) = Some cp ->
  returncode cp <> 0%Z ->
  generate wd w
  = (inl (CalledProcessError (returncode cp)),
     {| w_files := store (compile_commands_path wd) (stdout cp)
                         (store (compile_commands_path wd) "" (w_files w));
        w_trace := (w_trace w
                    ++ [Printed "Generating compile commands file...";
                        Opened (compile_commands_path wd);
                        Ran (generator_cmd wd)])%list |}).
Proof.
  intros Hf Hg Hrc. apply Z.eqb_neq in Hrc.
  unfold _generate_compile_commands, open_w, print.
  unfold bind, is_file, emit, set_file, run_query, raise.
  cbn [w_files w_trace]. rewrite Hf. cbn [is_some negb w_files w_trace].
  rewrite Hg. cbn [w_files w_trace]. rewrite Hrc. cbn [negb].
  now rewrite <- !app_assoc.
Qed.

(** What [main] prints about the cleaner binary changes no file. *)
Lemma before_loop_generate args w :
  exists notices,
    before_loop args w = generate (work_dir args) (logged notices w)
    /\ runs_of notices = [] /\ writes_of notices = [].
Proof.
  unfold main_before_loop, bind, is_file, print, emit, ret.
  destruct (negb (is_some (w_files w _CLEANER_BINARY_PATH))).
  - eexists [_; _]. cbn [w_files w_trace]. unfold logged.
    rewrite <- app_assoc. split; [reflexivity | split; reflexivity].
  - exists []. rewrite logged_nil. now split.
Qed.

Lemma main_stops_before_loop args w e w' :
  before_loop args w = (inl e, w') -> run_main args w = (inl e, w').
Proof. intros H. unfold main, bind. now rewrite H. Qed.

(** The loop computes what [adjusted_outputs] describes. *)
Lemma loop_adjusted wd sm cmd fs flag w outs :
  adjusted wd sm cmd fs (w_files w) = Some outs ->
  exists w1,
    loop wd sm cmd fs flag w = (inr (existsb output_changed outs || flag), w1).
Proof.
  revert flag w outs. induction fs as [|f fs IH]; intros flag w outs.
  - intros [= <-]. now exists w.
  - cbn [adjusted_outputs main_loop].
    destruct (negb (supported suffix f)); [apply IH|].
    destruct (gn (gn_cmd gn_path f wd) (w_files w)) as [q|] eqn:Hq;
      [|discriminate].
    unfold bind at 1.
    rewrite (is_built_launched f wd w q Hq).
    destruct (negb (returncode q =? 0)%Z).
    + intros H. unfold bind, print, emit.
      apply (IH flag {| w_files := w_files (logged [Ran (gn_cmd gn_path f wd)] w);
                        w_trace := _ |}). exact H.
    + destruct (cleaner (cmd ++ [f])%list (w_files w)) as [[cp fs1]|] eqn:Hc;
        [|discriminate].
      destruct (fs1 f) as [content|] eqn:Hf; [|discriminate].
      destruct (adjusted wd sm cmd fs _) as [outs'|] eqn:Hr; [|discriminate].
      intros [= <-]. unfold bind.
      rewrite (apply_eval f sm cmd
                          (logged [Ran (gn_cmd gn_path f wd)] w)
                          cp fs1 content Hc Hf).
      match goal with
      | |- exists w1, loop _ _ _ _ ?b ?w2 = _ =>
          destruct (IH b w2 outs' Hr) as (w1 & ->)
      end.
      exists w1. cbn [existsb output_changed snd]. f_equal. f_equal.
      unfold output_changed at 1. cbn [snd].
      now rewrite orb_assoc, (orb_comm (existsb output_changed outs')).
Qed.

(** Where a tool cannot be launched or a file is gone, the loop ends
    with [OSError]. *)
Lemma loop_not_adjusted wd sm cmd fs flag w :
  adjusted wd sm cmd fs (w_files w) = None ->
  fst (loop wd sm cmd fs flag w) = inl OSError.
Proof.
  revert flag w. induction fs as [|f fs IH]; intros flag w.
  - discriminate.
  - cbn [adjusted_outputs main_loop].
    destruct (negb (supported suffix f)); [apply IH|].
    destruct (gn (gn_cmd gn_path f wd) (w_files w)) as [q|] eqn:Hq.
    + unfold bind at 1.
      rewrite (is_built_launched f wd w q Hq).
      destruct (negb (returncode q =? 0)%Z).
      * intros H. unfold bind, print, emit.
        apply (IH flag {| w_files := w_files (logged [Ran (gn_cmd gn_path f wd)] w);
                          w_trace := _ |}). exact H.
      * destruct (cleaner (cmd ++ [f])%list (w_files w)) as [[cp fs1]|] eqn:Hc.
        -- destruct (fs1 f) as [content|] eqn:Hf.
           ++ destruct (adjusted wd sm cmd fs _) as [outs'|] eqn:Hr;
                [discriminate|]. intros _. unfold bind.
              rewrite (apply_eval f sm cmd
                                  (logged [Ran (gn_cmd gn_path f wd)] w)
                                  cp fs1 content Hc Hf).
              apply IH. exact Hr.
           ++ intros _. unfold bind.
              now rewrite (apply_unreadable f sm cmd
                             (logged [Ran (gn_cmd gn_path f wd)] w)
                             cp fs1 Hc Hf).
        -- intros _. unfold bind.
           now rewrite (apply_not_launched f sm cmd
                          (logged [Ran (gn_cmd gn_path f wd)] w) Hc).
    + intros _. unfold bind at 1.
      now rewrite (is_built_not_launched f wd w Hq).
Qed.

(** C1.  In check mode, when the start of [main] completes and
    [adjusted_outputs] lists the files that reach the cleaner, each with
    its cleaner standard output stripped and adjusted against its
    content: the loop ends with the flag [changes_generated] equal to
    "some listed output is not empty", the exit status is 1 exactly when
    some listed output is not empty, and 0 exactly when all are empty. *)
Theorem check_mode_exit_status args w w0 outs :
  check_for_changes args = true ->
  before_loop args w = (inr tt, w0) ->
  adjusted_outputs suffix gn_path gn cleaner (work_dir args)
                   (should_modify_of args) (cmd_of args) (files args)
                   (w_files w0) = Some outs ->
  fst (loop (work_dir args) (should_modify_of args) (cmd_of args)
            (files args) false w0)
  = inr (existsb output_changed outs)
  /\ (exit_status (fst (run_main args w)) = 1%Z
      <-> exists f o, In (f, o) outs /\ o <> "")
  /\ (exit_status (fst (run_main args w)) = 0%Z
      <-> forall f o, In (f, o) outs -> o = "").
Proof.
  intros Hcheck Hb Ho.
  destruct (loop_adjusted (work_dir args) (should_modify_of args)
                          (cmd_of args) (files args) false w0 outs Ho)
    as (w1 & Hloop).
  rewrite orb_false_r in Hloop.
  assert (Hstatus : exit_status (fst (run_main args w))
                    = if existsb output_changed outs then 1%Z else 0%Z).
  { unfold main, bind. rewrite Hb, Hloop.
    unfold main_after_loop, print, bind, emit, raise, ret.
    rewrite Hcheck, andb_true_r. now destruct (existsb output_changed outs). }
  split; [now rewrite Hloop|]. rewrite Hstatus.
  split.
  - destruct (existsb output_changed outs) eqn:E.
    + split; [intros _|reflexivity].
      apply existsb_exists in E as ([f o] & Hin & Ht).
      exists f, o. split; [assumption | now apply truthy_true].
    + split; [discriminate|]. intros (f & o & Hin & Ht).
      apply truthy_true in Ht.
      assert (existsb output_changed outs = true)
        by (apply existsb_exists; exists (f, o); now split).
      congruence.
  - destruct (existsb output_changed outs) eqn:E.
    + split; [discriminate|]. intros Hall.
      apply existsb_exists in E as ([f o] & Hin & Ht).
      unfold output_changed in Ht. cbn [snd] in Ht.
      rewrite (Hall f o Hin) in Ht. discriminate.
    + split; [intros _|reflexivity]. intros f o Hin.
      destruct o as [|c o]; [reflexivity|].
      assert (existsb output_changed outs = true)
        by (apply existsb_exists; exists (f, String c o); now split).
      congruence.
Qed.

(** C6.  When the cleaner ran on the file and the file was read as
    [content]: the script writes the file exactly when [should_modify] is
    set and the rewritten content differs from [content], the one write
    then being the rewritten content; otherwise the files are as the
    cleaner left them.  Whatever the cleaner does, a call without
    [should_modify] writes nothing. *)
Theorem write_iff_rewrite_differs f sm cmd w cp fs1 content :
  cleaner (cmd ++ [f])%list (w_files w) = Some (cp, fs1) ->
  fs1 f = Some content ->
  writes_of (w_trace (snd (apply_cleaner f sm cmd w)))
  = (writes_of (w_trace w)
     ++ (if rewrite_due sm content
         then [Wrote f (_modified_content content)] else []))%list
  /\ w_files (snd (apply_cleaner f sm cmd w))
     = (if rewrite_due sm content
        then store f (_modified_content content) fs1 else fs1)
  /\ (rewrite_due sm content = true
      <-> sm = true /\ _modified_content content <> content)
  /\ (forall g cmd' w0,
         writes_of (w_trace (snd (apply_cleaner g false cmd' w0)))
         = writes_of (w_trace w0)).
Proof.
  intros Hc Hf. rewrite (apply_eval f sm cmd w cp fs1 content Hc Hf).
  cbn [snd w_files w_trace]. split; [|split; [reflexivity|split]].
  - rewrite !writes_of_app. f_equal.
    destruct (negb (returncode cp =? 0)%Z), (rewrite_due sm content);
      reflexivity.
  - unfold rewrite_due. rewrite andb_true_iff, negb_true_iff, String.eqb_neq.
    split; intros [H1 H2]; (split; [assumption | congruence]).
  - intros g cmd' w0. apply apply_print_only_writes.
Qed.

(** C7.  A file whose suffix is not supported can be taken out of the
    list without any change to what the loop does, returns and records.
    A supported file that the build graph does not reference costs one
    query and one notice, then the loop goes on with the same flag and
    the same files; and with such a file at any place of the list, the
    loop returns the same flag (or raises the same exception) and leaves
    the same files as without it. *)
Theorem skipped_files_leave_no_mark wd sm cmd :
  (forall pre f post flag w,
      supported suffix f = false ->
      loop wd sm cmd (pre ++ f :: post) flag w
      = loop wd sm cmd (pre ++ post) flag w)
  /\ (forall f rest flag w cp,
         supported suffix f = true ->
         gn (gn_cmd gn_path f wd) (w_files w) = Some cp ->
         returncode cp <> 0%Z ->
         loop wd sm cmd (f :: rest) flag w
         = loop wd sm cmd rest flag
                (logged [Ran (gn_cmd gn_path f wd); Printed (skip_notice f)]
                        w))
  /\ (forall pre f post flag w flag1 w1 cp,
         loop wd sm cmd pre flag w = (inr flag1, w1) ->
         supported suffix f = true ->
         gn (gn_cmd gn_path f wd) (w_files w1) = Some cp ->
         returncode cp <> 0%Z ->
         fst (loop wd sm cmd (pre ++ f :: post) flag w)
         = fst (loop wd sm cmd (pre ++ post) flag w)
         /\ w_files (snd (loop wd sm cmd (pre ++ f :: post) flag w))
            = w_files (snd (loop wd sm cmd (pre ++ post) flag w))).
Proof.
  assert (Hskip : forall f rest flag w cp,
             supported suffix f = true ->
             gn (gn_cmd gn_path f wd) (w_files w) = Some cp ->
             returncode cp <> 0%Z ->
             loop wd sm cmd (f :: rest) flag w
             = loop wd sm cmd rest flag
                    (logged [Ran (gn_cmd gn_path f wd);
                             Printed (skip_notice f)] w)).
  { intros f rest flag w cp Hs Hg Hrc. apply Z.eqb_neq in Hrc.
    cbn [main_loop]. rewrite Hs. cbn [negb]. unfold bind.
    rewrite (is_built_launched f wd w cp Hg), Hrc. cbn [negb].
    unfold print, emit, logged. cbn [w_files w_trace].
    now rewrite <- app_assoc. }
  split; [|split; [exact Hskip|]].
  - intros pre f post flag w Hs. rewrite !loop_app. unfold bind.
    destruct (loop wd sm cmd pre flag w) as [[e|flag1] w1]; [reflexivity|].
    cbn [main_loop]. now rewrite Hs.
  - intros pre f post flag w flag1 w1 cp Hpre Hs Hg Hrc.
    rewrite !loop_app. unfold bind. rewrite Hpre.
    rewrite (Hskip f post flag1 w1 cp Hs Hg Hrc).
    apply appends_logged, appends_loop.
Qed.

(** C8 (as amended).  When the query tool is launched, [_is_built]
    returns true exactly when its exit code is 0.  When it cannot be
    launched, [_is_built] raises [OSError]; nothing catches it: the loop
    stops at that file and [main] ends with the exception, exit status 1,
    the remaining files not being looked at. *)
Theorem is_built_by_exit_code :
  (forall f wd w cp,
      gn (gn_cmd gn_path f wd) (w_files w) = Some cp ->
      fst (is_built f wd w) = inr (returncode cp =? 0)%Z
      /\ (fst (is_built f wd w) = inr true <-> returncode cp = 0%Z))
  /\ (forall f wd w,
         gn (gn_cmd gn_path f wd) (w_files w) = None ->
         is_built f wd w = (inl OSError, w))
  /\ (forall args w w0 pre f post flag1 w1,
         before_loop args w = (inr tt, w0) ->
         files args = (pre ++ f :: post)%list ->
         loop (work_dir args) (should_modify_of args) (cmd_of args)
              pre false w0 = (inr flag1, w1) ->
         supported suffix f = true ->
         gn (gn_cmd gn_path f (work_dir args)) (w_files w1) = None ->
         run_main args w = (inl OSError, w1)
         /\ exit_status (fst (run_main args w)) = 1%Z).
Proof.
  split; [|split].
  - intros f wd w cp Hg. rewrite (is_built_launched f wd w cp Hg).
    cbn [fst]. split; [reflexivity|].
    rewrite <- Z.eqb_eq. split; [now intros [= ->] | now intros ->].
  - exact is_built_not_launched.
  - intros args w w0 pre f post flag1 w1 Hb Hfs Hpre Hs Hg.
    assert (run_main args w = (inl OSError, w1)) as ->; [|now split].
    unfold main, bind. rewrite Hb, Hfs, loop_app. unfold bind.
    rewrite Hpre. cbn [main_loop]. rewrite Hs. cbn [negb]. unfold bind.
    now rewrite (is_built_not_launched f _ w1 Hg).
Qed.

(** C9.  When [compile_commands.json] is in the work directory,
    [_generate_compile_commands] returns at once and leaves the world as
    it is (no program run, no file touched).  When it is not there and
    the generator ends with a non-zero exit code, [main] ends with
    [CalledProcessError]: the generator is the only program run, and
    nothing was written by the script. *)
Theorem compile_commands_bootstrap :
  (forall wd w,
      is_some (w_files w (compile_commands_path wd)) = true ->
      generate wd w = (inr tt, w))
  /\ (forall args w cp,
         w_files w (compile_commands_path (work_dir args)) = None ->
         generator (generator_cmd (work_dir args))
                   (store (compile_commands_path (work_dir args)) ""
                          (w_files w)) = Some cp ->
         returncode cp <> 0%Z ->
         fst (run_main args w) = inl (CalledProcessError (returncode cp))
         /\ runs_of (w_trace (snd (run_main args w)))
            = (runs_of (w_trace w)
               ++ [Ran (generator_cmd (work_dir args))])%list
         /\ writes_of (w_trace (snd (run_main args w)))
            = writes_of (w_trace w)).
Proof.
  split; [exact generate_present|].
  intros args w cp Hf Hg Hrc.
  destruct (before_loop_generate args w) as (notices & Hb & Hr & Hw).
  rewrite (generate_failed (work_dir args) (logged notices w) cp Hf Hg Hrc)
    in Hb.
  rewrite (main_stops_before_loop _ _ _ _ Hb). cbn [fst snd w_trace logged].
  split; [reflexivity|].
  rewrite !runs_of_app, !writes_of_app, Hr, Hw.
  cbn [runs_of writes_of filter]. rewrite !List.app_nil_r.
  split; reflexivity.
Qed.

End Claims.
End DriverClaims.

(* ================================================================== *)
(** ** The properties at the sample inputs *)

Module DriverWitnesses.
Import Text Cleaner Driver Samples DriverFacts DriverClaims.

Lemma check_mode_exit_status_witness :
  check_for_changes sample_args = true
  /\ adjusted_outputs text_from_last_dot sample_gn_path sample_gn
                      sample_cleaner (work_dir sample_args)
                      (should_modify_of sample_args) (cmd_of sample_args)
                      (files sample_args) (w_files sample_world)
     = Some [("a.cc", "- " ++ quoted "x.h" ++ " @Line:1")]
  /\ exit_status
       (fst (main text_from_last_dot sample_gn_path sample_gn
                  failing_generator sample_cleaner sample_args sample_world))
     = 1%Z.
Proof.
  split; [reflexivity|]. split; [reflexivity|].
  pose proof (check_mode_exit_status
                text_from_last_dot sample_gn_path sample_gn failing_generator
                sample_cleaner sample_args sample_world sample_world
                [("a.cc", "- " ++ quoted "x.h" ++ " @Line:1")]
                eq_refl eq_refl eq_refl) as (_ & H & _).
  apply H. eexists _, _. split; [left; reflexivity | discriminate].
Defined.

Lemma write_iff_rewrite_differs_witness :
  writes_of (w_trace (snd (apply_include_cleaner_to_file
                             sample_cleaner "a.cc" true [] sample_world)))
  = [Wrote "a.cc" (_modified_content sample_both)].
Proof.
  exact (proj1 (write_iff_rewrite_differs
                  sample_cleaner "a.cc" true [] sample_world _ _ sample_both
                  eq_refl eq_refl)).
Defined.

Lemma skipped_files_leave_no_mark_witness :
  supported text_from_last_dot "README.md" = false
  /\ supported text_from_last_dot "unbuilt.cc" = true
  /\ main_loop text_from_last_dot sample_gn_path sample_gn sample_cleaner
               "out/Default" false [] ["README.md"; "a.cc"] false sample_world
     = main_loop text_from_last_dot sample_gn_path sample_gn sample_cleaner
                 "out/Default" false [] ["a.cc"] false sample_world
  /\ fst (main_loop text_from_last_dot sample_gn_path sample_gn sample_cleaner
                    "out/Default" false [] ["README.md"; "unbuilt.cc"; "a.cc"]
                    false sample_world)
     = fst (main_loop text_from_last_dot sample_gn_path sample_gn
                      sample_cleaner "out/Default" false []
                      ["README.md"; "a.cc"] false sample_world).
Proof.
  pose proof (skipped_files_leave_no_mark
                text_from_last_dot sample_gn_path sample_gn sample_cleaner
                "out/Default" false []) as (H1 & _ & H3).
  split; [reflexivity|]. split; [reflexivity|]. split.
  - exact (H1 [] "README.md" ["a.cc"] false sample_world eq_refl).
  - refine (proj1 (H3 ["README.md"] "unbuilt.cc" ["a.cc"] false sample_world
                      false sample_world _ eq_refl eq_refl eq_refl _)).
    discriminate.
Defined.

Lemma is_built_by_exit_code_witness :
  fst (_is_built sample_gn_path sample_gn "a.cc" "out/Default" sample_world)
  = inr true
  /\ _is_built sample_gn_path missing_gn "a.cc" "out/Default" sample_world
     = (inl OSError, sample_world)
  /\ exit_status
       (fst (main text_from_last_dot sample_gn_path missing_gn
                  failing_generator sample_cleaner sample_args sample_world))
     = 1%Z.
Proof.
  pose proof (is_built_by_exit_code
                text_from_last_dot sample_gn_path sample_gn failing_generator
                sample_cleaner) as (H1 & _ & _).
  pose proof (is_built_by_exit_code
                text_from_last_dot sample_gn_path missing_gn failing_generator
                sample_cleaner) as (_ & H2 & H3).
  split; [|split].
  - exact (proj1 (H1 "a.cc" "out/Default" sample_world _ eq_refl)).
  - exact (H2 "a.cc" "out/Default" sample_world eq_refl).
  - exact (proj2 (H3 sample_args sample_world sample_world ["README.md"]
                     "unbuilt.cc" ["a.cc"] false sample_world
                     eq_refl eq_refl eq_refl eq_refl eq_refl)).
Defined.

(** C8 as stated fails: with no query tool to launch, [_is_built] does
    not answer "not built"; it raises, and [main] ends with the exception
    before the closing message, where a file merely not built is skipped
    and [main] goes on to the end. *)
Lemma missing_tool_aborts_run :
  fst (_is_built sample_gn_path missing_gn "unbuilt.cc" "out/Default"
                 sample_world) = inl OSError
  /\ fst (_is_built sample_gn_path missing_gn "unbuilt.cc" "out/Default"
                    sample_world) <> inr false
  /\ fst (_is_built sample_gn_path sample_gn "unbuilt.cc" "out/Default"
                    sample_world) = inr false
  /\ main text_from_last_dot sample_gn_path missing_gn failing_generator
          sample_cleaner sample_args sample_world
     = (inl OSError, sample_world)
  /\ fst (main text_from_last_dot sample_gn_path sample_gn failing_generator
               sample_cleaner sample_args sample_world)
     = inl (SystemExit 1).
Proof.
  split; [reflexivity|]. split; [discriminate|]. split; [reflexivity|].
  split; reflexivity.
Qed.

Lemma compile_commands_bootstrap_witness :
  _generate_compile_commands failing_generator "out/Default" sample_world
  = (inr tt, sample_world)
  /\ fst (main text_from_last_dot sample_gn_path sample_gn failing_generator
               sample_cleaner sample_args bare_world)
     = inl (CalledProcessError 2).
Proof.
  pose proof (compile_commands_bootstrap
                text_from_last_dot sample_gn_path sample_gn failing_generator
                sample_cleaner) as (H1 & H2).
  split.
  - exact (H1 "out/Default" sample_world eq_refl).
  - refine (proj1 (H2 sample_args bare_world _ eq_refl eq_refl _)).
    discriminate.
Defined.

End DriverWitnesses.

(* ================================================================== *)
(** ** More properties of the two rewrites *)

Module CleanerExtras.
Import Text Cleaner Samples TextFacts SubFacts CleanerFacts CleanerClaims.

(** *** [strip] leaves no space at the end *)

Lemma rstrip_no_space_end (s a : string) (c : ascii) :
  rstrip s = a ++ String c "" -> is_space c = false.
Proof.
  revert a. induction s as [|x s IH]; intros a; cbn [rstrip].
  - destruct a; discriminate.
  - destruct (rstrip s) as [|y r] eqn:E.
    + destruct (is_space x) eqn:Ex.
      * destruct a; discriminate.
      * destruct a as [|z a]; cbn [append].
        -- now intros [= <-].
        -- intros [= _ H]. destruct a; discriminate.
    + destruct a as [|z a]; cbn [append].
      * discriminate.
      * intros [= _ H]. now apply (IH a).
Qed.

Lemma strip_not_nl_ended (s a : string) : strip s <> a ++ NL.
Proof.
  unfold strip, NL. intros H. apply rstrip_no_space_end in H. discriminate.
Qed.

(** X1.  What [apply_include_cleaner_to_file] makes of the cleaner's
    standard output, [_modified_output (strip report) content], is the
    stripped report or the empty string.  It is empty exactly when the
    stripped report is empty, or the content holds the canonical spelling
    and the stripped report is the one line the pattern matches. *)
Theorem adjusted_report_kept_or_emptied (report content : string) :
  (_modified_output (strip report) content = strip report
   \/ _modified_output (strip report) content = "")
  /\ (_modified_output (strip report) content = ""
      <-> strip report = ""
          \/ (contains _GTEST_VALUE content = true
              /\ full_match output_pattern (strip report) = true)).
Proof.
  unfold _modified_output, sub_whole, full_match.
  destruct (contains _GTEST_VALUE content).
  - destruct (match_here output_pattern (strip report)) as [rest|] eqn:E.
    + destruct (String.eqb_spec rest "") as [->|H1]; cbn [orb append].
      * split; [now right|]. split; [intros _; right; now split | reflexivity].
      * destruct (String.eqb_spec rest NL) as [->|H2].
        -- exfalso. apply match_here_split in E as (m & E & _).
           now apply strip_not_nl_ended in E.
        -- split; [now left|]. split; [now left|].
           intros [H|[_ H]]; [assumption|].
           destruct rest; [contradiction | discriminate].
    + split; [now left|]. split; [now left|].
      intros [H|[_ H]]; [assumption | discriminate].
  - split; [now left|]. split; [now left|].
    intros [H|[H _]]; [assumption | discriminate].
Qed.

(** *** Lines that stay and lines that go *)

Lemma drop_lines_length (f : string -> bool) (ls : list string) :
  List.length (drop_lines f ls) <= List.length ls.
Proof.
  induction ls as [|l ls IH]; [apply le_n|].
  destruct ls as [|l' ls]; [apply le_n|].
  rewrite drop_lines_cons2. destruct (f l); cbn [List.length] in *; lia.
Qed.

Lemma drop_lines_keep (f : string -> bool) (ls : list string) :
  (forall l, In l (removelast ls) -> f l = false) -> drop_lines f ls = ls.
Proof.
  induction ls as [|l ls IH]; intros H; [reflexivity|].
  destruct ls as [|l' ls]; [reflexivity|].
  rewrite drop_lines_cons2.
  change (removelast (l :: l' :: ls)) with (l :: removelast (l' :: ls)) in H.
  rewrite (H l) by now left.
  f_equal. apply IH. intros x Hx. apply H. now right.
Qed.

Lemma drop_lines_same_length (f : string -> bool) (ls : list string) :
  List.length (drop_lines f ls) = List.length ls ->
  forall l, In l (removelast ls) -> f l = false.
Proof.
  induction ls as [|l ls IH]; intros H x Hx; [contradiction|].
  destruct ls as [|l' ls]; [contradiction|].
  rewrite drop_lines_cons2 in H.
  change (removelast (l :: l' :: ls)) with (l :: removelast (l' :: ls)) in Hx.
  destruct (f l) eqn:E.
  - pose proof (drop_lines_length f (l' :: ls)). cbn [List.length] in *. lia.
  - destruct Hx as [<-|Hx]; [assumption|].
    apply IH; [|assumption]. cbn [List.length] in *. lia.
Qed.

Lemma drop_lines_last (f : string -> bool) (ls : list string) (d : string) :
  last (drop_lines f ls) d = last ls d.
Proof.
  induction ls as [|l ls IH]; [reflexivity|].
  destruct ls as [|l' ls]; [reflexivity|].
  rewrite drop_lines_cons2.
  change (last (l :: l' :: ls) d) with (last (l' :: ls) d).
  destruct (f l); [exact IH|].
  pose proof (drop_lines_not_nil f (l' :: ls)) as Hn.
  destruct (drop_lines f (l' :: ls)) as [|a r] eqn:E;
    [exfalso; now apply Hn|].
  change (last (l :: a :: r) d) with (last (a :: r) d). exact IH.
Qed.

Lemma last_map_lines (g : string -> string) (ls : list string) (d : string) :
  ls <> [] -> last (map g ls) (g d) = g (last ls d).
Proof.
  induction ls as [|l ls IH]; [contradiction|]. intros _.
  destruct ls as [|l' ls]; [reflexivity|].
  change (last (map g (l :: l' :: ls)) (g d))
    with (last (map g (l' :: ls)) (g d)).
  change (last (l :: l' :: ls) d) with (last (l' :: ls) d).
  apply IH. discriminate.
Qed.

(** A rewritten line names no key any more. *)
Lemma new_spelling_names_no_key (old new rest : string) :
  In (old, new) _IWYU_MAPPING ->
  names_key ("#include " ++ new ++ rest) = false.
Proof.
  intros H. cbn [In _IWYU_MAPPING] in H.
  repeat (destruct H as [[= <- <-]|H]; [reflexivity|]).
  contradiction.
Qed.

Lemma rewrite_line_names_no_key (l : string) :
  names_key (rewrite_line l) = false.
Proof.
  destruct (names_key l) eqn:E.
  - apply names_key_split in E as (old & new & rest & Hin & ->).
    rewrite (rewrite_line_entry old new rest Hin).
    now apply (new_spelling_names_no_key old).
  - now rewrite (rewrite_line_other l E).
Qed.

Lemma rewrite_line_fixed (l : string) :
  rewrite_line l = l <-> names_key l = false.
Proof.
  split; [|apply rewrite_line_other].
  intros H. rewrite <- H. apply rewrite_line_names_no_key.
Qed.

Lemma rewrite_line_empty (l : string) : rewrite_line l = "" <-> l = "".
Proof.
  split; [|now intros ->].
  destruct (names_key l) eqn:E.
  - apply names_key_split in E as (old & new & rest & Hin & ->).
    rewrite (rewrite_line_entry old new rest Hin). discriminate.
  - now rewrite (rewrite_line_other l E).
Qed.

Lemma map_fixed (g : string -> string) (ls : list string) :
  map g ls = ls <-> forall l, In l ls -> g l = l.
Proof.
  induction ls as [|l ls IH]; cbn [map].
  - split; [intros _ l [] | reflexivity].
  - split.
    + intros [= H1 H2] x [<-|Hx]; [assumption | now apply IH].
    + intros H. rewrite (H l) by now left. f_equal.
      apply IH. intros x Hx. apply H. now right.
Qed.

(** X2.  No line of a rewritten content begins with [#include ]
    followed by a key of the table. *)
Theorem rewrite_leaves_no_key_line (content l : string) :
  In l (lines (_modified_content content)) -> names_key l = false.
Proof.
  rewrite modified_content_lines. intros H.
  apply in_map_iff in H as (l0 & <- & _). apply rewrite_line_names_no_key.
Qed.

(** X3.  The rewrite returns a content as it is exactly when no line of
    it begins with [#include ] and a key of the table and, in case it
    holds the canonical spelling, the removal pattern matches none of its
    newline-ended lines. *)
Theorem rewrite_fixed_point (content : string) :
  _modified_content content = content
  <-> (forall l, In l (lines content) -> names_key l = false)
      /\ (contains _GTEST_VALUE content = true ->
          forall l, In l (removelast (lines content)) ->
                    removal_matches l = false).
Proof.
  split.
  - intros H.
    assert (Hl : map rewrite_line (lines_after_removal content)
                 = lines content)
      by now rewrite <- modified_content_lines, H.
    assert (Hlen : List.length (lines_after_removal content)
                   = List.length (lines content))
      by now rewrite <- Hl, length_map.
    assert (Hgo : contains _GTEST_VALUE content = true ->
                  forall l, In l (removelast (lines content)) ->
                            removal_matches l = false).
    { intros Hc. unfold lines_after_removal in Hlen. rewrite Hc in Hlen.
      now apply drop_lines_same_length. }
    assert (Hsame : lines_after_removal content = lines content).
    { unfold lines_after_removal.
      destruct (contains _GTEST_VALUE content); [|reflexivity].
      now apply drop_lines_keep, Hgo. }
    split; [|exact Hgo].
    rewrite Hsame in Hl. intros l Hin.
    apply rewrite_line_fixed. revert l Hin. now apply map_fixed.
  - intros [Hk Hgo].
    assert (Hsame : lines_after_removal content = lines content).
    { unfold lines_after_removal.
      destruct (contains _GTEST_VALUE content); [|reflexivity].
      now apply drop_lines_keep, Hgo. }
    rewrite modified_content_unlines, Hsame.
    replace (map rewrite_line (lines content)) with (lines content).
    + apply unlines_lines.
    + symmetry. apply map_fixed. intros l Hin.
      now apply rewrite_line_other, Hk.
Qed.

(** X4.  The rewrite adds no line, keeps the number of lines when the
    content does not hold the canonical spelling, and never removes the
    last line, which it only passes through the table: the result ends
    with a newline exactly when the content does. *)
Theorem rewrite_keeps_line_structure (content : string) :
  List.length (lines (_modified_content content))
  <= List.length (lines content)
  /\ (contains _GTEST_VALUE content = false ->
      List.length (lines (_modified_content content))
      = List.length (lines content))
  /\ last (lines (_modified_content content)) ""
     = rewrite_line (last (lines content) "")
  /\ (last (lines (_modified_content content)) "" = ""
      <-> last (lines content) "" = "").
Proof.
  rewrite modified_content_lines, length_map.
  assert (Hlast : last (map rewrite_line (lines_after_removal content)) ""
                  = rewrite_line (last (lines content) "")).
  { change "" with (rewrite_line "") at 1.
    rewrite last_map_lines by apply lines_after_removal_not_nil.
    f_equal. unfold lines_after_removal.
    destruct (contains _GTEST_VALUE content);
      [apply drop_lines_last | reflexivity]. }
  unfold lines_after_removal at 1 2.
  destruct (contains _GTEST_VALUE content).
  - split; [apply drop_lines_length|]. split; [discriminate|].
    split; [exact Hlast|]. rewrite Hlast. apply rewrite_line_empty.
  - split; [apply le_n|]. split; [reflexivity|].
    split; [exact Hlast|]. rewrite Hlast. apply rewrite_line_empty.
Qed.

Lemma sample_socket_exact (l : string) :
  In l (lines sample_socket) ->
  removal_matches l = true -> l = deprecated_line.
Proof.
  intros H. vm_compute in H.
  destruct H as [<-|[<-|[<-|[]]]]; vm_compute; intros E; discriminate E.
Defined.

Lemma modified_content_idempotent_exact_witness :
  _modified_content (_modified_content sample_socket)
  = _modified_content sample_socket.
Proof.
  exact (modified_content_idempotent_exact sample_socket sample_socket_exact).
Defined.

Lemma rewrite_leaves_no_key_line_witness :
  In ("#include " ++ quoted "rtc_base/net_helpers.h" ++ "  // sockets")
     (lines (_modified_content sample_socket))
  /\ names_key ("#include " ++ quoted "rtc_base/net_helpers.h"
                ++ "  // sockets") = false.
Proof.
  assert (H : In ("#include " ++ quoted "rtc_base/net_helpers.h"
                  ++ "  // sockets")
                 (lines (_modified_content sample_socket)))
    by (left; reflexivity).
  split; [exact H|].
  exact (rewrite_leaves_no_key_line sample_socket _ H).
Defined.
End CleanerExtras.

(* ================================================================== *)
(** ** More properties of the driver *)

Module DriverExtras.
Import Text Cleaner Driver Samples Observed DriverFacts DriverClaims.

Lemma within_ret {A} P Q (a : A) : within P Q (ret a).
Proof.
  intros w. split; [exists []; split; [now rewrite List.app_nil_r | constructor]|].
  discriminate.
Qed.

Lemma within_raise {A} (P : event -> Prop) (Q : exn -> Prop) e :
  Q e -> within P Q (@raise A e).
Proof.
  intros H w. split; [exists []; split; [now rewrite List.app_nil_r | constructor]|].
  now intros e' [= <-].
Qed.

Lemma within_bind {A B} P Q (c : M A) (k : A -> M B) :
  within P Q c -> (forall a, within P Q (k a)) -> within P Q (bind c k).
Proof.
  intros Hc Hk w. unfold bind.
  destruct (Hc w) as [(evs1 & Ht1 & Hp1) He1].
  destruct (c w) as [[e|a] w1]; cbn [fst snd] in *.
  - split; [now exists evs1|].
    intros e' [= <-]. now apply He1.
  - destruct (Hk a w1) as [(evs2 & Ht2 & Hp2) He2].
    split; [|exact He2].
    exists (evs1 ++ evs2)%list. split.
    + now rewrite Ht2, Ht1, app_assoc.
    + now apply Forall_app.
Qed.

Lemma within_emit (P : event -> Prop) Q e : P e -> within P Q (emit e).
Proof.
  intros H w. split; [|discriminate].
  exists [e]. split; [reflexivity | now constructor].
Qed.

Lemma within_if {A} P Q (b : bool) (c1 c2 : M A) :
  (b = true -> within P Q c1) -> (b = false -> within P Q c2) ->
  within P Q (if b then c1 else c2).
Proof. destruct b; auto. Qed.

Lemma within_weaken {A} (P P' : event -> Prop) (Q Q' : exn -> Prop)
      (c : M A) :
  (forall ev, P ev -> P' ev) -> (forall e, Q e -> Q' e) ->
  within P Q c -> within P' Q' c.
Proof.
  intros HP HQ Hc w. destruct (Hc w) as [(evs & Ht & Hp) He].
  split; [|now auto].
  exists evs. split; [assumption|]. eapply Forall_impl; [|exact Hp]. exact HP.
Qed.

Lemma within_is_file (P : event -> Prop) (Q : exn -> Prop) p :
  within P Q (is_file p).
Proof.
  intros w. split; [|discriminate].
  exists []. split; [cbn; now rewrite List.app_nil_r | constructor].
Qed.

Lemma within_set_file (P : event -> Prop) (Q : exn -> Prop) p c :
  within P Q (set_file p c).
Proof.
  intros w. split; [|discriminate].
  exists []. split; [cbn; now rewrite List.app_nil_r | constructor].
Qed.

Lemma within_read_text (P : event -> Prop) (Q : exn -> Prop) p :
  Q OSError -> within P Q (read_text p).
Proof.
  intros HQ w. unfold read_text. destruct (w_files w p); cbn [fst snd].
  - split; [|discriminate].
    exists []. split; [now rewrite List.app_nil_r | constructor].
  - split; [|now intros e [= <-]].
    exists []. split; [now rewrite List.app_nil_r | constructor].
Qed.

Lemma within_run_query (P : event -> Prop) (Q : exn -> Prop) tool cmd :
  P (Ran cmd) -> Q OSError -> within P Q (run_query tool cmd).
Proof.
  intros HP HQ w. unfold run_query.
  destruct (tool cmd (w_files w)); cbn [fst snd w_trace].
  - split; [|discriminate]. exists [Ran cmd]. split; [reflexivity | now constructor].
  - split; [|now intros e [= <-]].
    exists []. split; [now rewrite List.app_nil_r | constructor].
Qed.

Lemma within_run_cleaner (P : event -> Prop) (Q : exn -> Prop) cleaner cmd :
  P (Ran cmd) -> Q OSError -> within P Q (run_cleaner cleaner cmd).
Proof.
  intros HP HQ w. unfold run_cleaner.
  destruct (cleaner cmd (w_files w)) as [[cp fs']|]; cbn [fst snd w_trace].
  - split; [|discriminate]. exists [Ran cmd]. split; [reflexivity | now constructor].
  - split; [|now intros e [= <-]].
    exists []. split; [now rewrite List.app_nil_r | constructor].
Qed.

Lemma writes_of_none (evs : list event) :
  Forall (fun ev => match ev with Wrote _ _ => False | _ => True end) evs ->
  writes_of evs = [].
Proof.
  induction 1 as [|ev evs Hev _ IH]; [reflexivity|].
  unfold writes_of in *. cbn [filter]. destruct ev; try assumption.
  contradiction.
Qed.

Lemma store_same (p c : string) (fs : FS) : store p c fs p = Some c.
Proof. unfold store. now rewrite String.eqb_refl. Qed.

Section Extras.

Variable suffix : string -> string.
Variable gn_path : string.
Variable gn : list string -> FS -> option CompletedProcess.
Variable generator : list string -> FS -> option CompletedProcess.
Variable cleaner : list string -> FS -> option (CompletedProcess * FS).

Local Abbreviation is_built := (_is_built gn_path gn).
Local Abbreviation apply_cleaner := (apply_include_cleaner_to_file cleaner).
Local Abbreviation loop := (main_loop suffix gn_path gn cleaner).
Local Abbreviation generate := (_generate_compile_commands generator).
Local Abbreviation before_loop := (main_before_loop generator).
Local Abbreviation run_main := (main suffix gn_path gn generator cleaner).

Lemma loop_event_ok_more wd sm cmd f fs ev :
  loop_event_ok suffix gn_path wd sm cmd fs ev ->
  loop_event_ok suffix gn_path wd sm cmd (f :: fs) ev.
Proof.
  destruct ev as [s|c|p|p t]; cbn [loop_event_ok]; [trivial| |trivial|].
  - intros (g & Hin & Hs & Hc). exists g. split; [now right | now split].
  - intros (Hm & Hin & Hs). split; [assumption|]. split; [now right | assumption].
Qed.

Lemma within_is_built wd f fs sm cmd :
  In f fs -> supported suffix f = true ->
  within (loop_event_ok suffix gn_path wd sm cmd fs) only_os_error
         (is_built f wd).
Proof.
  intros Hin Hs. unfold _is_built.
  apply within_bind; [|intros cp; apply within_ret].
  apply within_run_query; [|reflexivity].
  exists f. split; [assumption|]. split; [assumption | now left].
Qed.

Lemma within_apply wd f fs sm cmd :
  In f fs -> supported suffix f = true ->
  within (loop_event_ok suffix gn_path wd sm cmd fs) only_os_error
         (apply_cleaner f sm cmd).
Proof.
  intros Hin Hs. unfold apply_include_cleaner_to_file, write_text, print.
  apply within_bind.
  { apply within_run_cleaner; [|reflexivity].
    exists f. split; [assumption|]. split; [assumption | now right]. }
  intros cp. apply within_bind.
  { apply within_if; intros _; [now apply within_emit | apply within_ret]. }
  intros _. apply within_bind; [now apply within_read_text|].
  intros content. apply within_bind.
  { apply within_if; [intros ->|intros _; apply within_ret].
    apply within_if; intros _; [|apply within_ret].
    apply within_bind; [|intros _; apply within_set_file].
    apply within_emit. now split. }
  intros _. apply within_bind; [|intros _; apply within_ret].
  apply within_if; intros _; now apply within_emit.
Qed.

Lemma within_loop wd sm cmd fs flag :
  within (loop_event_ok suffix gn_path wd sm cmd fs) only_os_error
         (loop wd sm cmd fs flag).
Proof.
  revert flag. induction fs as [|f fs IH]; intros flag; cbn [main_loop].
  - apply within_ret.
  - assert (Hrest : forall b,
               within (loop_event_ok suffix gn_path wd sm cmd (f :: fs))
                      only_os_error (loop wd sm cmd fs b)).
    { intros b. eapply within_weaken; [| |apply IH]; [|trivial].
      intros ev. apply loop_event_ok_more. }
    destruct (supported suffix f) eqn:Hs; cbn [negb]; [|apply Hrest].
    apply within_bind; [apply within_is_built; [now left | assumption]|].
    intros built. apply within_if; intros _.
    + apply within_bind; [now apply within_emit | intros _; apply Hrest].
    + apply within_bind; [|intros out; apply Hrest].
      apply within_apply; [now left | assumption].
Qed.

Lemma within_generate args :
  within (main_event_ok suffix gn_path args) (main_exn_ok args)
         (generate (work_dir args)).
Proof.
  unfold _generate_compile_commands, open_w, print.
  apply within_bind; [apply within_is_file|]. intros present.
  apply within_if; intros _; [|apply within_ret].
  apply within_bind; [now apply within_emit|]. intros _.
  apply within_bind.
  { apply within_bind; [now apply within_emit | intros _; apply within_set_file]. }
  intros _. apply within_bind.
  { apply within_run_query; [now left | exact I]. }
  intros cp. apply within_bind; [apply within_set_file|]. intros _.
  apply within_if; intros H; [|apply within_ret].
  apply within_raise. cbn [main_exn_ok].
  apply negb_true_iff in H. now apply Z.eqb_neq.
Qed.

Lemma loop_in_main args ev :
  loop_event_ok suffix gn_path (work_dir args) (should_modify_of args)
                (cmd_of args) (files args) ev ->
  main_event_ok suffix gn_path args ev.
Proof.
  destruct ev; cbn [main_event_ok loop_event_ok]; try trivial.
  - intros H. now right.
  - contradiction.
Qed.

Lemma within_main args :
  within (main_event_ok suffix gn_path args) (main_exn_ok args)
         (run_main args).
Proof.
  unfold main, main_before_loop, main_after_loop, print.
  apply within_bind.
  { apply within_bind; [apply within_is_file|]. intros present.
    apply within_bind; [|intros _; apply within_generate].
    apply within_if; intros _; [|apply within_ret].
    apply within_bind; [now apply within_emit | intros _; now apply within_emit]. }
  intros _. apply within_bind.
  { eapply within_weaken; [| |apply within_loop].
    - apply loop_in_main.
    - now intros e ->. }
  intros flag. apply within_bind; [now apply within_emit|]. intros _.
  apply within_bind; [now apply within_emit|]. intros _.
  apply within_if; intros H; [|apply within_ret].
  apply within_raise. split; [reflexivity|].
  now apply andb_true_iff in H as [_ H].
Qed.

(** X6.  Every event of a run of [main] is a print, the creation of the
    compilation database, a run of the generator, a build graph query or a
    cleaner run on a supported file of [args.files] (the cleaner with the
    command [main] built and that file), or a write of such a file when
    neither [--print] nor [--check-for-changes] was given.  With either
    flag, [main] writes nothing. *)
Theorem main_touches_listed_files_only args w :
  (exists evs,
      w_trace (snd (run_main args w)) = (w_trace w ++ evs)%list
      /\ Forall (main_event_ok suffix gn_path args) evs)
  /\ ((print_only args || check_for_changes args) = true ->
      writes_of (w_trace (snd (run_main args w))) = writes_of (w_trace w)).
Proof.
  destruct (within_main args w) as [(evs & Ht & Hp) _].
  split; [now exists evs|].
  intros Hmode. rewrite Ht, writes_of_app.
  rewrite (writes_of_none evs); [apply List.app_nil_r|].
  eapply Forall_impl; [|exact Hp].
  intros [s|c|p|p t]; cbn [main_event_ok loop_event_ok]; try trivial.
  unfold should_modify_of. rewrite Hmode. now intros [? _].
Qed.

(** [_generate_compile_commands] with the database missing, by what
    the generator does. *)
Lemma generate_launched wd w cp :
  w_files w (compile_commands_path wd) = None ->
  generator (generator_cmd wd)
            (store (compile_commands_path wd) "" (w_files w)) = Some cp ->
  generate wd w
  = (if negb (returncode cp =? 0)%Z
     then inl (CalledProcessError (returncode cp)) else inr tt,
     {| w_files := store (compile_commands_path wd) (stdout cp)
                         (store (compile_commands_path wd) "" (w_files w));
        w_trace := (w_trace w
                    ++ [Printed "Generating compile commands file...";
                        Opened (compile_commands_path wd);
                        Ran (generator_cmd wd)])%list |}).
Proof.
  intros Hf Hg.
  unfold _generate_compile_commands, open_w, print.
  unfold bind, is_file, emit, set_file, run_query, raise, ret.
  cbn [w_files w_trace]. rewrite Hf. cbn [is_some negb w_files w_trace].
  rewrite Hg. cbn [w_files w_trace].
  destruct (negb (returncode cp =? 0)%Z); now rewrite <- !app_assoc.
Qed.

Lemma generate_not_launched wd w :
  w_files w (compile_commands_path wd) = None ->
  generator (generator_cmd wd)
            (store (compile_commands_path wd) "" (w_files w)) = None ->
  generate wd w
  = (inl OSError,
     {| w_files := store (compile_commands_path wd) "" (w_files w);
        w_trace := (w_trace w
                    ++ [Printed "Generating compile commands file...";
                        Opened (compile_commands_path wd)])%list |}).
Proof.
  intros Hf Hg.
  unfold _generate_compile_commands, open_w, print.
  unfold bind, is_file, emit, set_file, run_query, raise, ret.
  cbn [w_files w_trace]. rewrite Hf. cbn [is_some negb w_files w_trace].
  rewrite Hg. now rewrite <- !app_assoc.
Qed.

(** X7.  From the return of [_parse_args()] on: when [main] ends by
    [SystemExit], the code is 1, [--check-for-changes] was given, and the
    loop had completed with [changes_generated] true; when it ends by
    [CalledProcessError], the compilation database was missing at the
    start and the code is the non-zero exit code of the generator. *)
Theorem main_raises_with_cause args w :
  (forall code,
      fst (run_main args w) = inl (SystemExit code) ->
      code = 1%Z /\ check_for_changes args = true
      /\ exists w0 w1,
           main_before_loop generator args w = (inr tt, w0)
           /\ main_loop suffix gn_path gn cleaner (work_dir args)
                        (should_modify_of args) (cmd_of args) (files args)
                        false w0 = (inr true, w1))
  /\ (forall rc,
         fst (run_main args w) = inl (CalledProcessError rc) ->
         w_files w (compile_commands_path (work_dir args)) = None
         /\ exists cp,
              generator (generator_cmd (work_dir args))
                        (store (compile_commands_path (work_dir args)) ""
                               (w_files w)) = Some cp
              /\ returncode cp = rc /\ rc <> 0%Z).
Proof.
  destruct (before_loop_generate generator args w) as (notices & Hb & _ & _).
  assert (Hgen :
            (exists w0, before_loop args w = (inr tt, w0))
            \/ (exists w0, before_loop args w = (inl OSError, w0))
            \/ (exists cp w0,
                   w_files w (compile_commands_path (work_dir args)) = None
                   /\ generator (generator_cmd (work_dir args))
                        (store (compile_commands_path (work_dir args)) ""
                               (w_files w)) = Some cp
                   /\ returncode cp <> 0%Z
                   /\ before_loop args w
                      = (inl (CalledProcessError (returncode cp)), w0))).
  { rewrite Hb.
    destruct (w_files w (compile_commands_path (work_dir args)))
      as [c|] eqn:Hf.
    - left. eexists. apply generate_present.
      cbn [logged w_files]. now rewrite Hf.
    - destruct (generator (generator_cmd (work_dir args))
                          (store (compile_commands_path (work_dir args)) ""
                                 (w_files w))) as [cp|] eqn:Hg.
      + rewrite (generate_launched (work_dir args) (logged notices w) cp Hf Hg).
        destruct (returncode cp =? 0)%Z eqn:Hrc; cbn [negb].
        * left. now eexists.
        * right. right. exists cp. eexists.
          apply Z.eqb_neq in Hrc. repeat split; try assumption; reflexivity.
      + right. left. eexists.
        apply (generate_not_launched (work_dir args) (logged notices w) Hf Hg). }
  unfold main, bind.
  destruct Hgen as [(w0 & Hw0)|[(w0 & Hw0)|(cp & w0 & Hf & Hg & Hrc & Hw0)]];
    rewrite Hw0; cbn [fst].
  - destruct (within_loop (work_dir args) (should_modify_of args)
                          (cmd_of args) (files args) false w0) as [_ Hl].
    destruct (main_loop _ _ _ _ _ _ _ _ _ w0) as [[e|flag] w1] eqn:El;
      cbn [fst] in *.
    + rewrite (Hl e eq_refl). split; intros ? [=].
    + unfold main_after_loop, print, bind, emit, raise, ret.
      destruct flag; cbn [andb].
      * destruct (check_for_changes args) eqn:Hc; cbn [fst].
        -- split; [|intros ? [=]].
           intros code [= <-]. split; [reflexivity|]. split; [reflexivity|].
           now exists w0, w1.
        -- split; intros ? [=].
      * split; intros ? [=].
  - split; intros ? [=].
  - split; [intros ? [=]|]. intros rc [= <-].
    split; [assumption|]. exists cp. now repeat split.
Qed.

Lemma loop_built wd sm cmd f rest flag w q :
  supported suffix f = true ->
  gn (gn_cmd gn_path f wd) (w_files w) = Some q ->
  returncode q = 0%Z ->
  loop wd sm cmd (f :: rest) flag w
  = bind (apply_cleaner f sm cmd)
         (fun output => loop wd sm cmd rest (truthy output || flag))
         (logged [Ran (gn_cmd gn_path f wd)] w).
Proof.
  intros Hs Hq Hrc. cbn [main_loop]. rewrite Hs. cbn [negb].
  unfold bind at 1. rewrite (is_built_launched gn_path gn f wd w q Hq), Hrc.
  reflexivity.
Qed.

(** X8.  For a supported file the build graph references: whatever exit
    code the cleaner ends with, the loop goes on with the next file, the
    flag updated with the adjusted output; when the cleaner cannot be
    launched, or the file is no longer there once the cleaner ran, the
    loop stops with [OSError] at once: the trace ends with the runs for
    this file and the remaining files are not looked at. *)
Theorem cleaner_failure_is_per_file wd sm cmd f rest flag w q :
  supported suffix f = true ->
  gn (gn_cmd gn_path f wd) (w_files w) = Some q ->
  returncode q = 0%Z ->
  (forall cp fs1 content,
      cleaner (cmd ++ [f])%list (w_files w) = Some (cp, fs1) ->
      fs1 f = Some content ->
      main_loop suffix gn_path gn cleaner wd sm cmd (f :: rest) flag w
      = main_loop suffix gn_path gn cleaner wd sm cmd rest
             (truthy (_modified_output (strip (stdout cp)) content) || flag)
             (snd (apply_cleaner f sm cmd
                                 (logged [Ran (gn_cmd gn_path f wd)] w))))
  /\ (cleaner (cmd ++ [f])%list (w_files w) = None ->
      main_loop suffix gn_path gn cleaner wd sm cmd (f :: rest) flag w
      = (inl OSError, logged [Ran (gn_cmd gn_path f wd)] w))
  /\ (forall cp fs1,
         cleaner (cmd ++ [f])%list (w_files w) = Some (cp, fs1) ->
         fs1 f = None ->
         main_loop suffix gn_path gn cleaner wd sm cmd (f :: rest) flag w
         = (inl OSError,
            {| w_files := fs1;
               w_trace :=
                 ((w_trace w ++ [Ran (gn_cmd gn_path f wd)])
                  ++ [Ran (cmd ++ [f])]
                  ++ (if negb (returncode cp =? 0)%Z
                      then [Printed ("Failed to run include cleaner on " ++ f
                                     ++ ", stderr: " ++ strip (stderr cp))]
                      else []))%list |})).
Proof.
  intros Hs Hq Hrc.
  rewrite (loop_built wd sm cmd f rest flag w q Hs Hq Hrc).
  unfold bind. split; [|split].
  - intros cp fs1 content Hc Hf.
    now rewrite (apply_eval cleaner f sm cmd
                            (logged [Ran (gn_cmd gn_path f wd)] w)
                            cp fs1 content Hc Hf).
  - intros Hc.
    now rewrite (apply_not_launched cleaner f sm cmd
                                    (logged [Ran (gn_cmd gn_path f wd)] w) Hc).
  - intros cp fs1 Hc Hf.
    now rewrite (apply_unreadable cleaner f sm cmd
                                  (logged [Ran (gn_cmd gn_path f wd)] w)
                                  cp fs1 Hc Hf).
Qed.

(** X9.  With [should_modify], once the cleaner ran and the file was read
    as [content], the file holds [_modified_content content] when
    [apply_include_cleaner_to_file] returns, and every other file is as
    the cleaner left it. *)
Theorem file_ends_rewritten f cmd w cp fs1 content :
  cleaner (cmd ++ [f])%list (w_files w) = Some (cp, fs1) ->
  fs1 f = Some content ->
  w_files (snd (apply_cleaner f true cmd w)) f
  = Some (_modified_content content)
  /\ (forall g, g <> f ->
                w_files (snd (apply_cleaner f true cmd w)) g = fs1 g).
Proof.
  intros Hc Hf. rewrite (apply_eval cleaner f true cmd w cp fs1 content Hc Hf).
  cbn [snd w_files]. unfold rewrite_due. cbn [andb].
  destruct (String.eqb_spec content (_modified_content content)) as [E|E];
    cbn [negb].
  - split; [now rewrite <- E | reflexivity].
  - split; [apply store_same|].
    intros g Hg. unfold store. apply String.eqb_neq in Hg. now rewrite Hg.
Qed.

(** X10.  The flag the loop starts with is only OR-ed into its result:
    it changes neither the exception, nor the world the loop leaves, nor
    what the files contribute. *)
Theorem loop_flag_accumulates wd sm cmd fs flag w :
  main_loop suffix gn_path gn cleaner wd sm cmd fs flag w
  = match main_loop suffix gn_path gn cleaner wd sm cmd fs false w with
    | (inl e, w') => (inl e, w')
    | (inr changed, w') => (inr (changed || flag), w')
    end.
Proof.
  rewrite !(loop_outputs suffix gn_path gn cleaner).
  destruct (processed_outputs suffix gn_path gn cleaner wd sm cmd fs w)
    as [[e|outs] w']; [reflexivity|].
  now rewrite orb_false_r.
Qed.

(** X11.  With the database missing and once the generator is run: the
    database file exists afterwards, holding what the generator printed,
    the more so when the generator ended with a non-zero exit code and
    the call raised; and it exists, empty, when the generator could not
    be launched.  A second call then returns at once without running the
    generator. *)
Theorem generation_leaves_database wd w :
  w_files w (compile_commands_path wd) = None ->
  (forall cp,
      generator (generator_cmd wd)
                (store (compile_commands_path wd) "" (w_files w)) = Some cp ->
      fst (generate wd w)
      = (if negb (returncode cp =? 0)%Z
         then inl (CalledProcessError (returncode cp)) else inr tt)
      /\ w_files (snd (generate wd w)) (compile_commands_path wd)
         = Some (stdout cp)
      /\ _generate_compile_commands generator wd (snd (generate wd w))
         = (inr tt, snd (generate wd w)))
  /\ (generator (generator_cmd wd)
                (store (compile_commands_path wd) "" (w_files w)) = None ->
      fst (generate wd w) = inl OSError
      /\ w_files (snd (generate wd w)) (compile_commands_path wd) = Some ""
      /\ _generate_compile_commands generator wd (snd (generate wd w))
         = (inr tt, snd (generate wd w))).
Proof.
  intros Hf. split.
  - intros cp Hg. rewrite (generate_launched wd w cp Hf Hg).
    cbn [fst snd w_files]. split; [reflexivity|].
    split; [apply store_same|].
    apply generate_present. cbn [w_files]. now rewrite store_same.
  - intros Hg. rewrite (generate_not_launched wd w Hf Hg).
    cbn [fst snd w_files]. split; [reflexivity|].
    split; [apply store_same|].
    apply generate_present. cbn [w_files]. now rewrite store_same.
Qed.

(** X12.  When the cleaner ends with a non-zero exit code and prints
    nothing but blanks, [apply_include_cleaner_to_file] prints the
    failure, then the success message, and returns the empty output: the
    file counts as unchanged. *)
Theorem crash_reported_as_success f sm cmd w cp fs1 content :
  cleaner (cmd ++ [f])%list (w_files w) = Some (cp, fs1) ->
  fs1 f = Some content ->
  returncode cp <> 0%Z ->
  strip (stdout cp) = "" ->
  fst (apply_cleaner f sm cmd w) = inr ""
  /\ w_trace (snd (apply_cleaner f sm cmd w))
     = (w_trace w
        ++ [Ran (cmd ++ [f]);
            Printed ("Failed to run include cleaner on " ++ f
                     ++ ", stderr: " ++ strip (stderr cp))]
        ++ (if rewrite_due sm content
            then [Wrote f (_modified_content content)] else [])
        ++ [Printed ("Successfully ran include cleaner on " ++ f)])%list.
Proof.
  intros Hc Hf Hrc Hout.
  rewrite (apply_eval cleaner f sm cmd w cp fs1 content Hc Hf).
  apply Z.eqb_neq in Hrc. rewrite Hrc, Hout. cbn [fst snd w_trace negb].
  assert (E : _modified_output "" content = "").
  { unfold _modified_output. now destruct (contains _GTEST_VALUE content). }
  rewrite E. split; reflexivity.
Qed.

End Extras.

Lemma main_touches_listed_files_only_witness :
  (print_only sample_args || check_for_changes sample_args) = true
  /\ writes_of (w_trace (snd (main text_from_last_dot sample_gn_path sample_gn
                                   sample_generator sample_cleaner
                                   sample_args sample_world)))
     = writes_of (w_trace sample_world).
Proof.
  split; [reflexivity|].
  exact (proj2 (main_touches_listed_files_only
                  text_from_last_dot sample_gn_path sample_gn
                  sample_generator sample_cleaner sample_args sample_world)
               eq_refl).
Defined.

Lemma main_raises_with_cause_witness :
  fst (main text_from_last_dot sample_gn_path sample_gn sample_generator
            sample_cleaner sample_args sample_world) = inl (SystemExit 1)
  /\ check_for_changes sample_args = true
  /\ fst (main text_from_last_dot sample_gn_path sample_gn failing_generator
               sample_cleaner sample_args bare_world)
     = inl (CalledProcessError 2)
  /\ w_files bare_world (compile_commands_path (work_dir sample_args)) = None.
Proof.
  pose proof (main_raises_with_cause
                text_from_last_dot sample_gn_path sample_gn sample_generator
                sample_cleaner sample_args sample_world) as (H1 & _).
  pose proof (main_raises_with_cause
                text_from_last_dot sample_gn_path sample_gn failing_generator
                sample_cleaner sample_args bare_world) as (_ & H2).
  split; [reflexivity|]. split; [exact (proj1 (proj2 (H1 1%Z eq_refl)))|].
  split; [reflexivity|]. exact (proj1 (H2 2%Z eq_refl)).
Defined.

Lemma generation_leaves_database_witness :
  w_files bare_world (compile_commands_path "out/Default") = None
  /\ fst (_generate_compile_commands failing_generator "out/Default"
                                     bare_world)
     = inl (CalledProcessError 2)
  /\ _generate_compile_commands
       failing_generator "out/Default"
       (snd (_generate_compile_commands failing_generator "out/Default"
                                        bare_world))
     = (inr tt,
        snd (_generate_compile_commands failing_generator "out/Default"
                                        bare_world)).
Proof.
  pose proof (generation_leaves_database failing_generator "out/Default"
                bare_world eq_refl) as (H & _).
  destruct (H _ eq_refl) as (H1 & _ & H3).
  split; [reflexivity|]. split; [exact H1 | exact H3].
Defined.

Lemma crash_reported_as_success_witness :
  fst (apply_include_cleaner_to_file crashing_cleaner "a.cc" false []
                                     sample_world) = inr ""
  /\ exit_status
       (fst (main text_from_last_dot sample_gn_path sample_gn
                  sample_generator crashing_cleaner sample_args sample_world))
     = 0%Z.
Proof.
  split; [|reflexivity].
  refine (proj1 (crash_reported_as_success crashing_cleaner "a.cc" false []
                   sample_world _ _ sample_both eq_refl eq_refl _ eq_refl)).
  discriminate.
Defined.

Lemma cleaner_failure_is_per_file_witness :
  fst (main_loop text_from_last_dot sample_gn_path sample_gn crashing_cleaner
                 "out/Default" false [] ["a.cc"; "README.md"] false
                 sample_world)
  = inr false
  /\ fst (main_loop text_from_last_dot sample_gn_path sample_gn
                    missing_cleaner "out/Default" false []
                    ["a.cc"; "README.md"] false sample_world)
     = inl OSError.
Proof.
  pose proof (cleaner_failure_is_per_file
                text_from_last_dot sample_gn_path sample_gn crashing_cleaner
                "out/Default" false [] "a.cc" ["README.md"] false
                sample_world _ eq_refl eq_refl eq_refl) as (H1 & _ & _).
  pose proof (cleaner_failure_is_per_file
                text_from_last_dot sample_gn_path sample_gn missing_cleaner
                "out/Default" false [] "a.cc" ["README.md"] false
                sample_world _ eq_refl eq_refl eq_refl) as (_ & H2 & _).
  split.
  - rewrite (H1 _ _ sample_both eq_refl eq_refl). reflexivity.
  - rewrite (H2 eq_refl). reflexivity.
Defined.

Lemma file_ends_rewritten_witness :
  w_files (snd (apply_include_cleaner_to_file
                  sample_cleaner "a.cc" true [] sample_world)) "a.cc"
  = Some (_modified_content sample_both).
Proof.
  exact (proj1 (file_ends_rewritten sample_cleaner "a.cc" [] sample_world
                                    _ _ sample_both eq_refl eq_refl)).
Defined.

End DriverExtras.
